(** * LensIt: the convenience factories of [lensit/__init__.py]

    A shallow embedding of the start-up functions of the [lensit] package
    ([get_fidcls], [get_ellmat], [get_lencmbs_lib], [get_maps_lib],
    [get_isocov], [get_config]) and the properties of them that the
    specification states.

    Conventions.
    - Python [int]s are [Z]; Python/NumPy floats are idealised as real
      numbers ([R]), so that [np.sqrt], [np.pi] and the products of the
      source keep their mathematical meaning.  The reals have no largest
      element: where Python refuses to convert an [int] above the float
      range ([OverflowError]), the model computes on.  In this module
      that happens in [get_ellmat] only, from [HD_res - LD_res = 1024]
      on: the model of [get_ellmat] is that of the source for
      [HD_res - LD_res < 1024].
    - Python [str] is [string]; a [dict] with string keys is a [gmap].
    - Exceptions, the process environment and the effects on the cache
      directories are threaded through a small reader/state/error monad. *)

From Stdlib Require Import ZArith List String Ascii Reals Lra Lia DecimalString DecimalZ
  DecimalPos.
From stdpp Require Import gmap strings.

Open Scope Z_scope.

(** ** Python values and builtins used by the module *)

Module Py.

(** A Python number as the module manipulates it: an [int] or a float. *)
Inductive pynum : Type :=
| PInt (z : Z)
| PFloat (r : R).

Definition to_R (n : pynum) : R :=
  match n with
  | PInt z => IZR z
  | PFloat r => r
  end.

(** [2 ** e]: an [int] for a non-negative exponent, a float otherwise. *)
Definition pow2 (e : Z) : pynum :=
  if 0 <=? e then PInt (2 ^ e) else PFloat (powerRZ 2 e).

(** Truth value of a number ([bool(x)]). *)
Definition truthy (n : pynum) : bool :=
  match n with
  | PInt z => negb (z =? 0)
  | PFloat r => if Req_dec_T r 0 then false else true
  end.

(** [o or d] where [o] is [None] or a number. *)
Definition py_or (o : option pynum) (d : pynum) : pynum :=
  match o with
  | None => d
  | Some v => if truthy v then v else d
  end.

(** ['%s' % z] for an [int]. *)
Definition str (z : Z) : string := NilZero.string_of_int (Z.to_int z).

Definition zeros (n : nat) : string := string_of_list_ascii (repeat "0"%char n).

(** Left padding with zeros up to [width] characters. *)
Definition zfill (width : nat) (s : string) : string :=
  zeros (width - String.length s) +:+ s.

(** ['%04d' % z]: the sign counts in the width. *)
Definition fmt_04d (z : Z) : string :=
  if z <? 0 then "-" +:+ zfill 3 (str (- z)) else zfill 4 (str z).

(** [b * s] for a [bool] and a [str]. *)
Definition bool_times (b : bool) (s : string) : string :=
  if b then s else "".

Definition startswith_slash (s : string) : bool :=
  match s with
  | String c _ => Ascii.eqb c "/"
  | EmptyString => false
  end.

Fixpoint endswith_slash (s : string) : bool :=
  match s with
  | EmptyString => false
  | String c EmptyString => Ascii.eqb c "/"
  | String _ s' => endswith_slash s'
  end.

Definition is_empty (s : string) : bool :=
  match s with EmptyString => true | _ => false end.

(** One round of the loop of [posixpath.join]. *)
Definition join_step (path b : string) : string :=
  if startswith_slash b then b
  else if is_empty path || endswith_slash path then path +:+ b
  else path +:+ "/" +:+ b.

(** [os.path.join(a, *p)]. *)
Definition os_path_join (a : string) (p : list string) : string :=
  fold_left join_step p a.

(** [l[0:n]]: a negative bound counts from the end. *)
Definition slice_to {A} (n : Z) (l : list A) : list A :=
  if 0 <=? n then firstn (Z.to_nat n) l
  else firstn (length l - Z.to_nat (- n)) l.

(** [np.arange(n, dtype=int)]. *)
Definition arange (n : Z) : list Z := map Z.of_nat (seq 0 (Z.to_nat n)).

(** [int(np.round(x))]: rounding to the nearest integer, ties to even. *)
Definition np_round (x : R) : Z :=
  let f := Zfloor x in
  let d := (x - IZR f)%R in
  if Rlt_dec d (1 / 2) then f
  else if Rlt_dec (1 / 2) d then f + 1
  else if Z.even f then f else f + 1.

(** [np.ones(n)] and [c * a] for a scalar [c] and an array [a]. *)
Definition np_ones (n : Z) : list R := repeat 1%R (Z.to_nat n).
Definition scale (c : R) (a : list R) : list R := map (Rmult c) a.

(** [np.prod] of a pair. *)
Definition prod2 (p : R * R) : R := (fst p * snd p)%R.

End Py.
Import Py.

(** ** Exceptions, environment and effects *)

(** The second operand of a failing [assert]. *)
Inductive assert_msg : Type :=
| MsgStr (s : string)
| MsgRes (LD_res HD_res : Z).

Inductive exn : Type :=
| AssertionError (msg : assert_msg).

Inductive result (A : Type) : Type :=
| Return (a : A)
| Raise (e : exn).
Arguments Return {A} a.
Arguments Raise {A} e.

(** What a worker does to the outside world, in the order it does it. *)
Inductive event : Type :=
| Construct (cls lib_dir : string)   (* a library object is built on [lib_dir] *)
| ReadFile (path : string)           (* a spectra file is loaded *)
| IsFull (lib_dir : string) (full : bool) (* [is_full()] on a phase library, and its answer *)
| GetSim (lib_dir : string) (idx : Z) (* [get_sim(idx)] on a phase library *)
| Barrier.                           (* [pbs.barrier()] *)

(** A dict of spectra: name of the column, values per multipole. *)
Abbreviation spectra := (gmap string (list R)).

(** What the module reads without changing it. *)
Record context : Type := {
  environ : gmap string string;            (* os.environ *)
  file_dirname : string;                   (* os.path.dirname(__file__) *)
  OMP_NUM_THREADS : Z;                     (* int(os.environ.get('OMP_NUM_THREADS', 1)) at import *)
  rank : Z;                                (* pbs.rank *)
  camb_clfile : string -> spectra;         (* content of a CAMB spectra file *)
  loadtxt : string -> list R               (* np.loadtxt *)
}.

(** What a call may change: the phase realizations present on disk, as
    pairs (library directory, simulation index), and the trace of events. *)
Record state : Type := {
  disk : gset (string * Z);
  trace : list event
}.

Definition M (A : Type) : Type := context -> state -> result A * state.

Definition ret {A} (a : A) : M A := fun _ st => (Return a, st).

Definition bind {A B} (k : A -> M B) (m : M A) : M B :=
  fun ctx st =>
    match m ctx st with
    | (Return a, st') => k a ctx st'
    | (Raise e, st') => (Raise e, st')
    end.

#[export] Instance M_ret : MRet M := @ret.
#[export] Instance M_bind : MBind M := @bind.

Definition raise {A} (e : exn) : M A := fun _ st => (Raise e, st).

Definition ask : M context := fun ctx st => (Return ctx, st).

Definition emit (e : event) : M unit :=
  fun _ st => (Return tt, {| disk := disk st; trace := trace st ++ [e] |}).

(** [assert b, msg]. *)
Definition py_assert (b : bool) (msg : assert_msg) : M unit :=
  if b then mret tt else raise (AssertionError msg).

(** [for x in l: body(x)]. *)
Fixpoint for_each {A} (l : list A) (body : A -> M unit) : M unit :=
  match l with
  | [] => mret tt
  | x :: l' => body x ;; for_each l' body
  end.

(** ** The module *)

Definition LMAX_SKY : Z := 5120.

Definition _get_lensitdir : M (string * string) :=
  ctx ← ask;
  match environ ctx !! "LENSIT"%string with
  | None =>
      raise (AssertionError
               (MsgStr "Set LENSIT env. variable to somewhere safe to write"))
  | Some LENSITDIR =>
      let CLSPATH := os_path_join (file_dirname ctx) ["data"; "cls"]%string in
      mret (LENSITDIR, CLSPATH)
  end.

(** *** Objects of the other modules of the package

    The classes below live in [lensit.ffs_covs], [lensit.sims] and
    [lensit.pbs]; this module only calls their constructors and a few
    methods. An object is the record of the arguments it was built from. *)

(** [ell_mat.ell_mat(lib_dir, shape, lsides)]. *)
Record ell_mat : Type := {
  em_lib_dir : string;
  em_shape : pynum * pynum;
  em_lsides : R * R
}.

(** [ell_mat.ffs_alm_pyFFTW(ell_mat, filt_func=..., num_threads=...)]. *)
Record ffs_alm : Type := {
  alm_ell_mat : ell_mat;
  alm_filt_func : Z -> bool;
  alm_num_threads : Z;
  alm_ellmax : Z
}.

Inductive phas_geom : Type :=
| OnAlm (lib : ffs_alm)
| OnPix (shape : pynum * pynum).

(** [ffs_phas.ffs_lib_phas] and [ffs_phas.pix_lib_phas]. *)
Record lib_phas : Type := {
  pha_lib_dir : string;
  pha_nfields : Z;
  pha_geom : phas_geom;
  pha_nsims_max : Z
}.

(** [ffs_cmbs.sims_cmb_len(lib_dir, lib_skyalm, cls_unl, lib_pha=..., cache_lens=...)]. *)
Record sims_cmb_len : Type := {
  cmb_lib_dir : string;
  cmb_lib_skyalm : ffs_alm;
  cmb_cls_unl : spectra;
  cmb_lib_pha : lib_phas;
  cmb_cache_lens : bool
}.

(** [ffs_maps.lib_noisemap(lib_dir, lib_datalm, lib_lencmb, cl_transf,
    nTpix, nQpix, nUpix, pix_pha=..., cache_sims=...)]. *)
Record lib_noisemap : Type := {
  map_lib_dir : string;
  map_lib_datalm : ffs_alm;
  map_lencmbs : sims_cmb_len;
  map_cl_transf : list R;
  map_nTpix : R;
  map_nQpix : R;
  map_nUpix : R;
  map_pix_pha : lib_phas;
  map_cache_sims : bool
}.

(** [ffs_cov.ffs_diagcov_alm(lib_dir, lib_datalm, cls_unl, cls_len,
    cl_transf, cls_noise, lib_skyalm=...)]. *)
Record ffs_diagcov_alm : Type := {
  cov_lib_dir : string;
  cov_lib_datalm : ffs_alm;
  cov_cls_unl : spectra;
  cov_cls_len : spectra;
  cov_cl_transf : list R;
  cov_cls_noise : spectra;
  cov_lib_skyalm : ffs_alm
}.

(** Modelled from the spec: the constructor of a cached library ensures
    that its directory exists and has no other effect. *)
Definition construct {A} (cls lib_dir : string) (obj : A) : M A :=
  emit (Construct cls lib_dir) ;; mret obj.

(** Modelled from the spec: [is_full()] of a phase library holds iff the
    realizations of all indices [0 .. nsims_max - 1] exist on disk. *)
Definition is_full (pha : lib_phas) : M bool :=
  fun _ st =>
    let full :=
      forallb (fun idx => bool_decide ((pha_lib_dir pha, idx) ∈ disk st))
              (arange (pha_nsims_max pha)) in
    (Return full,
     {| disk := disk st; trace := trace st ++ [IsFull (pha_lib_dir pha) full] |}).

(** Modelled from the spec: [get_sim(idx)] of a phase library returns the
    cached realization if present; otherwise it generates one and persists
    it. The realization itself is not used by this module. *)
Definition get_sim (pha : lib_phas) (idx : Z) : M unit :=
  fun _ st =>
    (Return tt,
     {| disk := {[ (pha_lib_dir pha, idx) ]} ∪ disk st;
        trace := trace st ++ [GetSim (pha_lib_dir pha) idx] |}).

(** [pbs.barrier()]. *)
Definition barrier : M unit := emit Barrier.

(** [camb_clfile(path)] and [np.loadtxt(path)]. *)
Definition read_clfile (path : string) : M spectra :=
  ctx ← ask; emit (ReadFile path) ;; mret (camb_clfile ctx path).

Definition read_txt (path : string) : M (list R) :=
  ctx ← ask; emit (ReadFile path) ;; mret (loadtxt ctx path).

(** The loop [for key in d.keys(): out[key] = f(key, d[key])] on a fresh [out]. *)
Definition dict_for_keys (f : string -> list R -> list R) (d : spectra) : spectra :=
  map_fold (fun key v out => <[key := f key v]> out) ∅ d.

(** *** [get_fidcls] *)

Definition get_fidcls (ellmax_sky : Z) (wrotationCls : bool) : M (spectra * spectra) :=
  dirs ← _get_lensitdir;
  cls_unlr ← read_clfile
    (os_path_join (snd dirs) ["fiducial_flatsky_lenspotentialCls.dat"%string]);
  let cls_unl :=
    dict_for_keys
      (fun key v => if decide (key = "pp"%string) then v
                    else slice_to (ellmax_sky + 1) v)
      cls_unlr in
  cls_unl ←
    (if wrotationCls then
       dirs ← _get_lensitdir;
       oo ← read_txt (os_path_join (snd dirs) ["fiducial_fieldrotationCls.dat"%string]);
       mret (<["oo"%string := oo]> cls_unl)
     else mret cls_unl);
  dirs ← _get_lensitdir;
  cls_lenr ← read_clfile
    (os_path_join (snd dirs) ["fiducial_flatsky_lensedCls.dat"%string]);
  let cls_len := dict_for_keys (fun _ v => slice_to (ellmax_sky + 1) v) cls_lenr in
  mret (cls_unl, cls_len).

(** *** [get_fidtenscls] *)

Definition get_fidtenscls (ellmax_sky : Z) : M spectra :=
  dirs ← _get_lensitdir;
  cls_tens ← read_clfile (os_path_join (snd dirs) ["fiducial_tensCls.dat"%string]);
  mret (dict_for_keys (fun _ v => slice_to (ellmax_sky + 1) v) cls_tens).

(** *** [get_ellmat] *)

(** The product [(np.sqrt(4. * np.pi) / 2 ** 14) * (2 ** (HD_res - LD_res))]
    is the product of a float by an [int] when [HD_res >= LD_res]; it is
    taken in the reals, which is what Python computes, up to rounding,
    for [HD_res - LD_res < 1024]. *)
Definition get_ellmat (LD_res HD_res : Z) : M ell_mat :=
  py_assert ((HD_res <=? 14) && (LD_res <=? 14)) (MsgRes LD_res HD_res) ;;
  let lcell_rad := (sqrt (4 * PI) / IZR (2 ^ 14) * to_R (pow2 (HD_res - LD_res)))%R in
  let shape := (pow2 LD_res, pow2 LD_res) in
  let lsides := ((lcell_rad * to_R (pow2 LD_res))%R,
                 (lcell_rad * to_R (pow2 LD_res))%R) in
  dirs ← _get_lensitdir;
  let lib_dir :=
    os_path_join (fst dirs)
      ["temp"; "ellmats"; "ellmat_" +:+ str HD_res +:+ "_" +:+ str LD_res]%string in
  construct "ell_mat" lib_dir
    {| em_lib_dir := lib_dir; em_shape := shape; em_lsides := lsides |}.

(** *** [get_config] *)

(** The tuple [(sN_uKamin, sN_uKaminP, Beam_FWHM_amin, ellmin, ellmax)]. *)
Definition config : Type := pynum * pynum * pynum * Z * Z.

Definition get_config (exp : string) : M config :=
  let sN_uKaminP : option pynum := None in
  '(sN_uKamin, Beam_FWHM_amin, ellmin, ellmax) ←
    (if decide (exp = "Planck"%string) then
       mret (PFloat 35, PFloat 7, 10, 2048)
     else if decide (exp = "Planck_65"%string) then
       mret (PFloat 35, PFloat 6.5, 100, 2048)
     else if decide (exp = "S4"%string) then
       mret (PFloat 1.5, PFloat 3, 10, 3000)
     else if decide (exp = "S4_opti"%string) then
       mret (PFloat 1, PFloat 1, 10, 3000)
     else if decide (exp = "S4_SPDP"%string) then
       mret (PFloat (0.5 / sqrt 2), PFloat 1, 10, 4096)
     else if decide (exp = "S4_opti_6000"%string) then
       mret (PFloat 1, PFloat 1, 10, 6000)
     else if decide (exp = "S5"%string) then
       mret (PFloat (1.5 / 4), PFloat 3, 10, 3000)
     else if decide (exp = "S6"%string) then
       mret (PFloat (1.5 / 4 / 4), PFloat 3, 10, 3000)
     else if decide (exp = "SO"%string) then
       mret (PFloat 3, PFloat 3, 10, 3000)
     else if decide (exp = "SOb1"%string) then
       mret (PFloat 3, PFloat 1, 10, 3000)
     else if decide (exp = "PB85"%string) then
       mret (PFloat (8.5 / sqrt 2), PFloat 3.5, 10, 3000)
     else if decide (exp = "PB5"%string) then
       mret (PFloat (5 / sqrt 2), PFloat 3.5, 10, 3000)
     else if decide (exp = "fcy_mark"%string) then
       mret (PFloat 5, PFloat 1.4, 10, 3000)
     else if decide (exp = "5muKamin_1amin"%string) then
       mret (PFloat 5, PFloat 1, 10, 3000)
     else if decide (exp = "Planck45"%string) then
       mret (PFloat 45, PInt 5, 10, 2048)
     else if decide (exp = "Planck45_lmax3000"%string) then
       mret (PFloat 45, PInt 5, 10, 3000)
     else
       let unset := (PInt 0, PInt 0, 0, 0) in
       py_assert false (MsgStr (exp +:+ " not implemented")) ;;
       mret unset);
  let sN_uKaminP := py_or sN_uKaminP (PFloat (sqrt 2 * to_R sN_uKamin)) in
  mret (sN_uKamin, sN_uKaminP, Beam_FWHM_amin, ellmin, ellmax).

(** The names [get_config] knows. *)
Definition experiments : list string :=
  ["Planck"; "Planck_65"; "S4"; "S4_opti"; "S4_SPDP"; "S4_opti_6000"; "S5"; "S6";
   "SO"; "SOb1"; "PB85"; "PB5"; "fcy_mark"; "5muKamin_1amin"; "Planck45";
   "Planck45_lmax3000"]%string.

(** *** The simulation libraries and the covariance *)

Section Factories.

(** Functions of the package that this module calls and does not define. *)
Variable get_fields : spectra -> list string.      (* ffs_cmbs.get_fields *)
Variable gauss_beam : R -> Z -> list R.            (* misc_utils.gauss_beam(fwhm, lmax=...) *)
Variable ellmax_of : ell_mat -> (Z -> bool) -> Z.  (* the attribute [ellmax] of an [ffs_alm] *)

Definition ffs_alm_pyFFTW (em : ell_mat) (filt_func : Z -> bool) (num_threads : Z)
  : ffs_alm :=
  {| alm_ell_mat := em; alm_filt_func := filt_func;
     alm_num_threads := num_threads; alm_ellmax := ellmax_of em filt_func |}.

Definition ffs_lib_phas (lib_dir : string) (nfields : Z) (lib_alm : ffs_alm)
           (nsims_max : Z) : M lib_phas :=
  construct "ffs_lib_phas" lib_dir
    {| pha_lib_dir := lib_dir; pha_nfields := nfields;
       pha_geom := OnAlm lib_alm; pha_nsims_max := nsims_max |}.

Definition pix_lib_phas (lib_dir : string) (nfields : Z) (shape : pynum * pynum)
           (nsims_max : Z) : M lib_phas :=
  construct "pix_lib_phas" lib_dir
    {| pha_lib_dir := lib_dir; pha_nfields := nfields;
       pha_geom := OnPix shape; pha_nsims_max := nsims_max |}.

(** [int(np.round(np.prod(lsides) / 4. / np.pi * 1000.))]. *)
Definition fsky_of (lsides : R * R) : Z :=
  np_round (prod2 lsides / 4 / PI * 1000).

(** [if not pha.is_full() and pbs.rank == 0: for idx in arange(nsims): pha.get_sim(idx)],
    followed by [pbs.barrier()]. *)
Definition fill_phases (pha : lib_phas) (nsims : Z) : M unit :=
  full ← is_full pha;
  ctx ← ask;
  (if negb full && (rank ctx =? 0)
   then for_each (arange nsims) (fun idx => get_sim pha idx)
   else mret tt) ;;
  barrier.

Definition get_lencmbs_lib (res : Z) (wrotation cache_sims : bool)
           (nsims num_threads : Z) : M sims_cmb_len :=
  HD_ellmat ← get_ellmat res res;
  let ellmax_sky := LMAX_SKY in
  let fsky := fsky_of (em_lsides HD_ellmat) in
  let lib_skyalm :=
    ffs_alm_pyFFTW HD_ellmat (fun ell => ell <=? ellmax_sky) num_threads in
  dirs ← _get_lensitdir;
  let skypha_libdir :=
    os_path_join (fst dirs)
      ["temp"; str nsims +:+ "_sims"; "fsky" +:+ fmt_04d fsky; "len_alms";
       "skypha" +:+ bool_times wrotation "_wcurl"]%string in
  '(cls_unl, cls_len) ← get_fidcls ellmax_sky wrotation;
  let nfield := Z.of_nat (length (get_fields cls_unl)) in
  skypha ← ffs_lib_phas skypha_libdir nfield lib_skyalm nsims;
  fill_phases skypha nsims ;;
  dirs ← _get_lensitdir;
  let sims_libdir :=
    os_path_join (fst dirs)
      ["temp"; str nsims +:+ "_sims"; "fsky" +:+ fmt_04d fsky;
       "len_alms" +:+ bool_times wrotation "_wcurl"]%string in
  construct "sims_cmb_len" sims_libdir
    {| cmb_lib_dir := sims_libdir; cmb_lib_skyalm := lib_skyalm;
       cmb_cls_unl := cls_unl; cmb_lib_pha := skypha;
       cmb_cache_lens := cache_sims |}.

Definition get_maps_lib (exp : string) (LDres HDres : Z)
           (wrotation cache_lenalms cache_maps : bool)
           (nsims num_threads : Z) : M lib_noisemap :=
  '(sN_uKamin, sN_uKaminP, Beam_FWHM_amin, ellmin, ellmax) ← get_config exp;
  ctx ← ask;
  len_cmbs ← get_lencmbs_lib HDres wrotation cache_lenalms nsims (OMP_NUM_THREADS ctx);
  let lmax_sky := alm_ellmax (cmb_lib_skyalm len_cmbs) in
  let cl_transf := gauss_beam (to_R Beam_FWHM_amin / 60 * PI / 180) lmax_sky in
  LD_ellmat ← get_ellmat LDres HDres;
  let lib_datalm :=
    ffs_alm_pyFFTW LD_ellmat (fun ell => ell <=? lmax_sky) num_threads in
  let fsky := fsky_of (em_lsides (alm_ell_mat (cmb_lib_skyalm len_cmbs))) in
  let vcell_amin2 :=
    (prod2 (em_lsides (alm_ell_mat lib_datalm))
     / (to_R (fst (em_shape (alm_ell_mat lib_datalm)))
        * to_R (snd (em_shape (alm_ell_mat lib_datalm))))
     * (180 * 60 / PI) ^ 2)%R in
  let nTpix := (to_R sN_uKamin / sqrt vcell_amin2)%R in
  let nPpix := (to_R sN_uKaminP / sqrt vcell_amin2)%R in
  dirs ← _get_lensitdir;
  let pixpha_libdir :=
    os_path_join (fst dirs)
      ["temp"; str nsims +:+ "_sims"; "fsky" +:+ fmt_04d fsky;
       "res" +:+ str LDres; "pixpha"]%string in
  pixpha ← pix_lib_phas pixpha_libdir 3 (em_shape (alm_ell_mat lib_datalm)) nsims;
  fill_phases pixpha nsims ;;
  dirs ← _get_lensitdir;
  let sims_libdir :=
    os_path_join (fst dirs)
      ["temp"; str nsims +:+ "_sims"; "fsky" +:+ fmt_04d fsky;
       "res" +:+ str LDres; exp; "maps" +:+ bool_times wrotation "_wcurl"]%string in
  construct "lib_noisemap" sims_libdir
    {| map_lib_dir := sims_libdir; map_lib_datalm := lib_datalm;
       map_lencmbs := len_cmbs; map_cl_transf := cl_transf;
       map_nTpix := nTpix; map_nQpix := nPpix; map_nUpix := nPpix;
       map_pix_pha := pixpha; map_cache_sims := cache_maps |}.

Definition get_isocov (exp : string) (LD_res HD_res pyFFTWthreads : Z)
  : M ffs_diagcov_alm :=
  let ellmax_sky := LMAX_SKY in
  '(sN_uKamin, sN_uKaminP, Beam_FWHM_amin, ellmin, ellmax) ← get_config exp;
  '(cls_unl, cls_len) ← get_fidcls ellmax_sky false;
  let cls_noise : spectra :=
    <["u"%string :=
        scale ((to_R sN_uKaminP * PI / 180 / 60) ^ 2) (np_ones (ellmax_sky + 1))]>
    (<["q"%string :=
        scale ((to_R sN_uKaminP * PI / 180 / 60) ^ 2) (np_ones (ellmax_sky + 1))]>
    (<["t"%string :=
        scale ((to_R sN_uKamin * PI / 180 / 60) ^ 2) (np_ones (ellmax_sky + 1))]>
     ∅)) in
  let cl_transf := gauss_beam (to_R Beam_FWHM_amin / 60 * PI / 180) ellmax_sky in
  em ← get_ellmat LD_res HD_res;
  let lib_alm :=
    ffs_alm_pyFFTW em (fun ell => (ellmin <=? ell) && (ell <=? ellmax)) pyFFTWthreads in
  em_sky ← get_ellmat LD_res HD_res;
  let lib_skyalm :=
    ffs_alm_pyFFTW em_sky (fun ell => ell <=? ellmax_sky) pyFFTWthreads in
  dirs ← _get_lensitdir;
  let lib_dir :=
    os_path_join (fst dirs)
      ["temp"; "Covs"; exp; "LD" +:+ str LD_res +:+ "HD" +:+ str HD_res]%string in
  construct "ffs_diagcov_alm" lib_dir
    {| cov_lib_dir := lib_dir; cov_lib_datalm := lib_alm;
       cov_cls_unl := cls_unl; cov_cls_len := cls_len;
       cov_cl_transf := cl_transf; cov_cls_noise := cls_noise;
       cov_lib_skyalm := lib_skyalm |}.

End Factories.

(** ** Sample environments *)

(** A worker with the cache root set to [/data], and nothing on disk yet. *)
Definition ctx0 : context :=
  {| environ := {[ "LENSIT"%string := "/data"%string ]};
     file_dirname := "/pkg/lensit";
     OMP_NUM_THREADS := 1;
     rank := 0;
     camb_clfile := fun _ => ∅;
     loadtxt := fun _ => [] |}.

Definition st0 : state := {| disk := ∅; trace := [] |}.

(** A worker whose rotation-spectrum file holds three multipoles. *)
Definition ctx_rot : context :=
  {| environ := {[ "LENSIT"%string := "/data"%string ]};
     file_dirname := "/pkg/lensit";
     OMP_NUM_THREADS := 1;
     rank := 0;
     camb_clfile := fun _ => ∅;
     loadtxt := fun _ => [1; 2; 3]%R |}.

(** A worker of rank 1 on the same cache root. *)
Definition ctx_follower : context :=
  {| environ := {[ "LENSIT"%string := "/data"%string ]};
     file_dirname := "/pkg/lensit";
     OMP_NUM_THREADS := 1;
     rank := 1;
     camb_clfile := fun _ => ∅;
     loadtxt := fun _ => [] |}.

(** ** Vocabulary of the statements *)

(** The state after the events [evs], the disk being left alone. *)
Definition log (st : state) (evs : list event) : state :=
  {| disk := disk st; trace := trace st ++ evs |}.

(** The file [name] of the directory of fiducial spectra. *)
Definition cls_file (ctx : context) (name : string) : string :=
  os_path_join (os_path_join (file_dirname ctx) ["data"; "cls"]%string) [name].

(** The files [get_fidcls] reads, in order. *)
Definition fid_reads (ctx : context) (wrotationCls : bool) : list event :=
  [ReadFile (cls_file ctx "fiducial_flatsky_lenspotentialCls.dat")]
  ++ (if wrotationCls
      then [ReadFile (cls_file ctx "fiducial_fieldrotationCls.dat")] else [])
  ++ [ReadFile (cls_file ctx "fiducial_flatsky_lensedCls.dat")].

(** The side of the patch of [get_ellmat(LD_res, HD_res)], in radians. *)
Definition lside (LD_res HD_res : Z) : R :=
  (sqrt (4 * PI) / IZR (2 ^ 14) * to_R (pow2 (HD_res - LD_res)) * to_R (pow2 LD_res))%R.

(** The sky-fraction bucket of the square patch of resolution [res]. *)
Definition sky_fsky (res : Z) : Z := fsky_of (lside res res, lside res res).

(** The unlensed and lensed spectra [get_fidcls] returns. *)
Definition fid_unl (ctx : context) (ellmax_sky : Z) (wrotationCls : bool) : spectra :=
  let unl :=
    dict_for_keys
      (fun key v => if decide (key = "pp"%string) then v
                    else slice_to (ellmax_sky + 1) v)
      (camb_clfile ctx (cls_file ctx "fiducial_flatsky_lenspotentialCls.dat")) in
  if wrotationCls
  then <["oo"%string := loadtxt ctx (cls_file ctx "fiducial_fieldrotationCls.dat")]> unl
  else unl.

Definition fid_len (ctx : context) (ellmax_sky : Z) : spectra :=
  dict_for_keys (fun _ v => slice_to (ellmax_sky + 1) v)
    (camb_clfile ctx (cls_file ctx "fiducial_flatsky_lensedCls.dat")).

(** The phase library on [dir] lacks one of its first [nsims] realizations. *)
Definition not_full (d : gset (string * Z)) (dir : string) (nsims : Z) : Prop :=
  exists idx, 0 <= idx < nsims /\ (dir, idx) ∉ d.

(** The disk after [get_sim] went through the indices [l] of the library on [dir]. *)
Definition filled (dir : string) (l : list Z) (d : gset (string * Z))
  : gset (string * Z) :=
  foldl (fun acc idx => {[ (dir, idx) ]} ∪ acc) d l.

(** The answer of [is_full()] for the library on [dir], on the disk [d]. *)
Definition full_on (d : gset (string * Z)) (dir : string) (nsims : Z) : bool :=
  forallb (fun idx => bool_decide ((dir, idx) ∈ d)) (arange nsims).

(** Whether this worker runs the generation loop of the library on [dir]. *)
Definition fill_go (ctx : context) (d : gset (string * Z)) (dir : string) (nsims : Z)
  : bool :=
  negb (full_on d dir nsims) && (rank ctx =? 0).

Definition fill_disk (ctx : context) (d : gset (string * Z)) (dir : string) (nsims : Z)
  : gset (string * Z) :=
  if fill_go ctx d dir nsims then filled dir (arange nsims) d else d.

Definition fill_events (ctx : context) (d : gset (string * Z)) (dir : string) (nsims : Z)
  : list event :=
  IsFull dir (full_on d dir nsims)
  :: (if fill_go ctx d dir nsims then map (GetSim dir) (arange nsims) else [])
  ++ [Barrier].

(** In the events [evs], [get_sim(idx)] on the library on [dir] comes
    after an [is_full()] of that library which answered false. *)
Definition after_failed_check (evs : list event) (dir : string) (idx : Z) : Prop :=
  exists before after,
    evs = before ++ IsFull dir false :: after /\ In (GetSim dir idx) after.

(** The cache directories of the libraries. *)
Definition ellmat_dir (root : string) (LD_res HD_res : Z) : string :=
  os_path_join root
    ["temp"; "ellmats"; "ellmat_" +:+ str HD_res +:+ "_" +:+ str LD_res]%string.

Definition skypha_dir (root : string) (res nsims : Z) (wrotation : bool) : string :=
  os_path_join root
    ["temp"; str nsims +:+ "_sims"; "fsky" +:+ fmt_04d (sky_fsky res); "len_alms";
     "skypha" +:+ bool_times wrotation "_wcurl"]%string.

Definition lencmbs_dir (root : string) (res nsims : Z) (wrotation : bool) : string :=
  os_path_join root
    ["temp"; str nsims +:+ "_sims"; "fsky" +:+ fmt_04d (sky_fsky res);
     "len_alms" +:+ bool_times wrotation "_wcurl"]%string.

Definition pixpha_dir (root : string) (LDres HDres nsims : Z) : string :=
  os_path_join root
    ["temp"; str nsims +:+ "_sims"; "fsky" +:+ fmt_04d (sky_fsky HDres);
     "res" +:+ str LDres; "pixpha"]%string.

Definition maps_dir (root exp : string) (LDres HDres nsims : Z) (wrotation : bool)
  : string :=
  os_path_join root
    ["temp"; str nsims +:+ "_sims"; "fsky" +:+ fmt_04d (sky_fsky HDres);
     "res" +:+ str LDres; exp; "maps" +:+ bool_times wrotation "_wcurl"]%string.

(** What a successful [get_lencmbs_lib] does, before it builds its library. *)
Definition lencmbs_prelude (ctx : context) (d : gset (string * Z)) (root : string)
           (res nsims : Z) (wrotation : bool) : list event :=
  [Construct "ell_mat" (ellmat_dir root res res)]
  ++ fid_reads ctx wrotation
  ++ [Construct "ffs_lib_phas" (skypha_dir root res nsims wrotation)]
  ++ removelast (fill_events ctx d (skypha_dir root res nsims wrotation) nsims).

(** What a successful [get_maps_lib] does, before it builds its library;
    [d1] is the disk as [get_lencmbs_lib] leaves it. *)
Definition maps_prelude (ctx : context) (d : gset (string * Z)) (root : string)
           (LDres HDres nsims : Z) (wrotation : bool) : list event :=
  let d1 := fill_disk ctx d (skypha_dir root HDres nsims wrotation) nsims in
  lencmbs_prelude ctx d root HDres nsims wrotation
  ++ [Barrier; Construct "sims_cmb_len" (lencmbs_dir root HDres nsims wrotation)]
  ++ [Construct "ell_mat" (ellmat_dir root LDres HDres);
      Construct "pix_lib_phas" (pixpha_dir root LDres HDres nsims)]
  ++ removelast (fill_events ctx d1 (pixpha_dir root LDres HDres nsims) nsims).

(** A string without the path separator. *)
Fixpoint no_slash (s : string) : bool :=
  match s with
  | EmptyString => true
  | String c s' => negb (Ascii.eqb c "/") && no_slash s'
  end.

(** The value of a spectrum at a multipole. *)
Definition cl_at (cls : spectra) (key : string) (ell : Z) : option R :=
  cls !! key ≫= fun cl => cl !! Z.to_nat ell.

(** Two workers whose fiducial files have the same columns and different
    values. *)
Definition ctx_a : context :=
  {| environ := {[ "LENSIT"%string := "/data"%string ]};
     file_dirname := "/pkg/lensit";
     OMP_NUM_THREADS := 1;
     rank := 0;
     camb_clfile := fun _ => {[ "tt"%string := [1; 2]%R ]};
     loadtxt := fun _ => [] |}.

Definition ctx_b : context :=
  {| environ := {[ "LENSIT"%string := "/data"%string ]};
     file_dirname := "/pkg/lensit";
     OMP_NUM_THREADS := 1;
     rank := 0;
     camb_clfile := fun _ => {[ "tt"%string := [1; 3]%R ]};
     loadtxt := fun _ => [] |}.

(** The fields of a set of spectra: its keys. *)
Definition keys_of (cls : spectra) : list string := elements (dom cls).

(** Stand-ins for the two numerical helpers of the package, to run the
    factories on the sample environments: a beam identically one, and a
    band limit equal to [LMAX_SKY]. *)
Definition beam_one (fwhm : R) (lmax : Z) : list R := np_ones (lmax + 1).
Definition ellmax_sky_of (em : ell_mat) (filt_func : Z -> bool) : Z := LMAX_SKY.

(** A computation that only appends to the trace, only adds to the disk,
    leaves the disk alone on a worker of non-zero rank, and calls
    [get_sim] only on rank 0 and on a library that was not full, after
    [is_full()] said so. *)
Definition guarded (nsims : Z) {A} (m : M A) : Prop :=
  forall ctx st,
  exists evs,
    trace (snd (m ctx st)) = trace st ++ evs
    /\ disk st ⊆ disk (snd (m ctx st))
    /\ (rank ctx ≠ 0 -> disk (snd (m ctx st)) = disk st)
    /\ (forall dir idx,
          In (GetSim dir idx) evs ->
          rank ctx = 0 /\ not_full (disk st) dir nsims
          /\ after_failed_check evs dir idx).

(** A string without the character [c]. *)
Fixpoint lacks (c : ascii) (s : string) : bool :=
  match s with
  | EmptyString => true
  | String x s' => negb (Ascii.eqb x c) && lacks c s'
  end.

(** A character that no decimal numeral contains. *)
Definition not_numeric (c : ascii) : bool :=
  negb (existsb (fun d => Ascii.eqb d c)
          ["0"; "1"; "2"; "3"; "4"; "5"; "6"; "7"; "8"; "9"; "-"]%char).

(** A path component that [os.path.join] takes as it is: not empty, no separator. *)
Definition plain (s : string) : Prop := s ≠ ""%string /\ no_slash s = true.

(** Components put one after the other, a separator in between. *)
Fixpoint slash_concat (l : list string) : string :=
  match l with
  | [] => ""
  | [c] => c
  | c :: l' => c +:+ String "/" (slash_concat l')
  end.

(** The cache directory of the covariance of [get_isocov]. *)
Definition cov_dir (root exp : string) (LD_res HD_res : Z) : string :=
  os_path_join root
    ["temp"; "Covs"; exp; "LD" +:+ str LD_res +:+ "HD" +:+ str HD_res]%string.

(** The area of a pixel of [get_maps_lib], in square arcminutes. *)
Definition vcell_amin2 (LDres HDres : Z) : R :=
  (prod2 (lside LDres HDres, lside LDres HDres)
   / (to_R (pow2 LDres) * to_R (pow2 LDres)) * (180 * 60 / PI) ^ 2)%R.

(** The side of a pixel, in arcminutes: about [0.74 * 2 ^ (HDres - LDres)]. *)
Definition lcell_amin (LDres HDres : Z) : R :=
  (sqrt (4 * PI) / IZR (2 ^ 14) * powerRZ 2 (HDres - LDres) * (180 * 60 / PI))%R.

(** The events of a successful [get_isocov]. *)
Definition isocov_events (ctx : context) (root exp : string) (LD_res HD_res : Z)
  : list event :=
  [ReadFile (cls_file ctx "fiducial_flatsky_lenspotentialCls.dat");
   ReadFile (cls_file ctx "fiducial_flatsky_lensedCls.dat");
   Construct "ell_mat" (ellmat_dir root LD_res HD_res);
   Construct "ell_mat" (ellmat_dir root LD_res HD_res);
   Construct "ffs_diagcov_alm" (cov_dir root exp LD_res HD_res)].

(** The error of a missing cache root. *)
Definition no_LENSIT : exn :=
  AssertionError (MsgStr "Set LENSIT env. variable to somewhere safe to write").

(** A worker without the cache root. *)
Definition ctx_noenv : context :=
  {| environ := ∅;
     file_dirname := "/pkg/lensit";
     OMP_NUM_THREADS := 1;
     rank := 0;
     camb_clfile := fun _ => {[ "tt"%string := [1; 2; 3]%R ]};
     loadtxt := fun _ => [] |}.

(** ** Running a computation *)

Lemma bind_Return {A B} (m : M A) (k : A -> M B) ctx st a st1 :
  m ctx st = (Return a, st1) -> (m ≫= k) ctx st = k a ctx st1.
Proof. intros H. unfold mbind, M_bind, bind. now rewrite H. Qed.

Lemma bind_Raise {A B} (m : M A) (k : A -> M B) ctx st e st1 :
  m ctx st = (Raise e, st1) -> (m ≫= k) ctx st = (Raise e, st1).
Proof. intros H. unfold mbind, M_bind, bind. now rewrite H. Qed.

Lemma bind_inv {A B} (m : M A) (k : A -> M B) ctx st b st' :
  (m ≫= k) ctx st = (Return b, st') ->
  exists a st1, m ctx st = (Return a, st1) /\ k a ctx st1 = (Return b, st').
Proof.
  unfold mbind, M_bind, bind. destruct (m ctx st) as [[a|e] st1]; intros H.
  - now exists a, st1.
  - discriminate.
Qed.

Lemma construct_run {A} cls lib_dir (obj : A) ctx st :
  construct cls lib_dir obj ctx st
  = (Return obj,
     {| disk := disk st; trace := trace st ++ [Construct cls lib_dir] |}).
Proof. reflexivity. Qed.

Lemma get_lensitdir_ok ctx st root :
  environ ctx !! "LENSIT"%string = Some root ->
  _get_lensitdir ctx st
  = (Return (root, os_path_join (file_dirname ctx) ["data"; "cls"]%string), st).
Proof.
  intros H. unfold _get_lensitdir, mbind, M_bind, bind, ask. now rewrite H.
Qed.

Lemma get_lensitdir_state ctx st : snd (_get_lensitdir ctx st) = st.
Proof.
  unfold _get_lensitdir, mbind, M_bind, bind, ask.
  now destruct (environ ctx !! _).
Qed.

Lemma get_lensitdir_inv ctx st dirs st' :
  _get_lensitdir ctx st = (Return dirs, st') ->
  environ ctx !! "LENSIT"%string = Some (fst dirs) /\ st' = st.
Proof.
  unfold _get_lensitdir, mbind, M_bind, bind, ask.
  destruct (environ ctx !! _); intros H.
  - now inversion H.
  - discriminate.
Qed.

(** ** Numbers *)

Lemma to_R_pow2 e : to_R (pow2 e) = powerRZ 2 e.
Proof.
  unfold pow2. destruct (Z.leb_spec 0 e) as [He|He]; [|reflexivity].
  cbn [to_R]. rewrite <- (Z2Nat.id e He).
  now rewrite <- pow_IZR, <- pow_powerRZ.
Qed.

Lemma sqrt_4PI_sqr : (sqrt (4 * PI) * sqrt (4 * PI) = 4 * PI)%R.
Proof. apply sqrt_sqrt. pose proof PI_RGT_0. lra. Qed.

(** The side of the patch, as [get_ellmat] computes it. *)
Lemma lside_powerRZ LD HD :
  lside LD HD = (sqrt (4 * PI) * powerRZ 2 (HD - 14))%R.
Proof.
  unfold lside. rewrite !to_R_pow2.
  replace (IZR (2 ^ 14)) with (powerRZ 2 14) by (rewrite <- to_R_pow2; reflexivity).
  replace (HD - 14) with ((HD - LD) + LD + (- 14)) by lia.
  rewrite !powerRZ_add by lra.
  replace (powerRZ 2 (- 14)) with (/ powerRZ 2 14)%R; [field|].
  - apply powerRZ_NOR. lra.
  - cbn. reflexivity.
Qed.

(** ** [get_ellmat] *)

Lemma get_ellmat_ok LD HD ctx st root :
  HD <= 14 -> LD <= 14 -> environ ctx !! "LENSIT"%string = Some root ->
  exists em,
    get_ellmat LD HD ctx st
    = (Return em,
       {| disk := disk st;
          trace := trace st ++ [Construct "ell_mat" (em_lib_dir em)] |})
    /\ em_lib_dir em = ellmat_dir root LD HD
    /\ em_shape em = (pow2 LD, pow2 LD)
    /\ em_lsides em = (lside LD HD, lside LD HD).
Proof.
  intros HHD HLD Henv. unfold get_ellmat.
  assert (Hb : (HD <=? 14) && (LD <=? 14) = true)
    by (apply andb_true_intro; split; now apply Z.leb_le).
  rewrite Hb. cbn [py_assert].
  erewrite bind_Return by reflexivity. cbv beta.
  rewrite (bind_Return _ _ _ _ _ _ (get_lensitdir_ok _ _ _ Henv)).
  cbv zeta. cbn [fst]. rewrite construct_run.
  eexists (Build_ell_mat _ _ _). split; [reflexivity|]. repeat split.
Qed.

Lemma get_ellmat_raise LD HD ctx st :
  14 < HD \/ 14 < LD ->
  get_ellmat LD HD ctx st = (Raise (AssertionError (MsgRes LD HD)), st).
Proof.
  intros H. unfold get_ellmat.
  assert (Hb : (HD <=? 14) && (LD <=? 14) = false).
  { apply andb_false_iff. destruct H; [left|right]; now apply Z.leb_gt. }
  now rewrite Hb.
Qed.

Lemma get_ellmat_noenv LD HD ctx st :
  HD <= 14 -> LD <= 14 -> environ ctx !! "LENSIT"%string = None ->
  get_ellmat LD HD ctx st
  = (Raise (AssertionError
              (MsgStr "Set LENSIT env. variable to somewhere safe to write")), st).
Proof.
  intros HHD HLD Henv. unfold get_ellmat.
  assert (Hb : (HD <=? 14) && (LD <=? 14) = true)
    by (apply andb_true_intro; split; now apply Z.leb_le).
  rewrite Hb. cbn [py_assert].
  erewrite bind_Return by reflexivity.
  apply bind_Raise. unfold _get_lensitdir, mbind, M_bind, bind, ask.
  now rewrite Henv.
Qed.

(** C4 (as amended). [get_ellmat] raises its resolution error, with the
    state untouched (no cache directory created, no file read), exactly
    when [HD_res > 14] or [LD_res > 14]. This is the only guard of the
    code: a negative resolution or [LD_res > HD_res] does not raise it. *)
Theorem get_ellmat_guard LD HD ctx st :
  get_ellmat LD HD ctx st = (Raise (AssertionError (MsgRes LD HD)), st)
  <-> (14 < HD \/ 14 < LD).
Proof.
  split; [|apply get_ellmat_raise].
  intros H. destruct (Z_lt_le_dec 14 HD) as [|HHD]; [now left|].
  destruct (Z_lt_le_dec 14 LD) as [|HLD]; [now right|]. exfalso.
  destruct (environ ctx !! "LENSIT"%string) as [root|] eqn:Henv.
  - destruct (get_ellmat_ok LD HD ctx st root HHD HLD Henv) as (em & Hrun & _).
    rewrite Hrun in H. discriminate.
  - rewrite (get_ellmat_noenv LD HD ctx st HHD HLD Henv) in H. discriminate.
Qed.

(** C4, the claim as stated fails: with [LD_res = 8 > HD_res = 7] no error
    is raised; the geometry is built and its cache directory touched. *)
Lemma get_ellmat_accepts_LD_above_HD :
  7 < 8 /\
  exists em st',
    get_ellmat 8 7 ctx0 st0 = (Return em, st')
    /\ trace st' = [Construct "ell_mat" "/data/temp/ellmats/ellmat_7_8"].
Proof.
  split; [lia|]. eexists. eexists.
  split; [unfold get_ellmat; cbn; reflexivity | reflexivity].
Qed.

(** A negative resolution is accepted as well: the shape is then [2 ** -1]. *)
Example get_ellmat_accepts_negative :
  exists em st',
    get_ellmat (-1) 14 ctx0 st0 = (Return em, st')
    /\ em_shape em = (PFloat (powerRZ 2 (-1)), PFloat (powerRZ 2 (-1))).
Proof.
  eexists. eexists.
  split; [unfold get_ellmat; cbn; reflexivity | reflexivity].
Qed.

(** C5. With the cache root set, [get_ellmat(7, 14)] builds a geometry of
    shape [(128, 128)] whose two sides are [(sqrt(4 pi) / 2^14) * 2^7 * 2^7]
    radians; the area of the patch is [4 pi]. *)
Theorem get_ellmat_7_14 ctx st root :
  environ ctx !! "LENSIT"%string = Some root ->
  exists em st',
    get_ellmat 7 14 ctx st = (Return em, st')
    /\ em_shape em = (PInt 128, PInt 128)
    /\ em_lsides em = ((sqrt (4 * PI) / 2 ^ 14 * 2 ^ 7 * 2 ^ 7)%R,
                       (sqrt (4 * PI) / 2 ^ 14 * 2 ^ 7 * 2 ^ 7)%R)
    /\ prod2 (em_lsides em) = (4 * PI)%R.
Proof.
  intros Henv.
  destruct (get_ellmat_ok 7 14 ctx st root ltac:(lia) ltac:(lia) Henv)
    as (em & Hrun & _ & Hshape & Hsides).
  exists em. eexists. split; [exact Hrun|]. split; [exact Hshape|].
  assert (Hside : lside 7 14 = (sqrt (4 * PI) / 2 ^ 14 * 2 ^ 7 * 2 ^ 7)%R).
  { unfold lside. change (pow2 (14 - 7)) with (PInt 128). change (pow2 7) with (PInt 128).
    change (2 ^ 14) with 16384. cbn [to_R pow]. lra. }
  rewrite Hsides, Hside. split; [reflexivity|].
  unfold prod2. cbn [fst snd].
  replace (sqrt (4 * PI) / 2 ^ 14 * 2 ^ 7 * 2 ^ 7)%R with (sqrt (4 * PI)) by field.
  apply sqrt_4PI_sqr.
Qed.

Lemma get_ellmat_7_14_witness :
  exists em st',
    get_ellmat 7 14 ctx0 st0 = (Return em, st')
    /\ em_shape em = (PInt 128, PInt 128)
    /\ em_lsides em = ((sqrt (4 * PI) / 2 ^ 14 * 2 ^ 7 * 2 ^ 7)%R,
                       (sqrt (4 * PI) / 2 ^ 14 * 2 ^ 7 * 2 ^ 7)%R)
    /\ prod2 (em_lsides em) = (4 * PI)%R.
Proof. apply (get_ellmat_7_14 ctx0 st0 "/data"). reflexivity. Defined.

(** ** [get_config] *)

Lemma get_config_raise exp ctx st :
  exp ∉ experiments ->
  get_config exp ctx st
  = (Raise (AssertionError (MsgStr (exp +:+ " not implemented"))), st).
Proof.
  intros H. unfold get_config.
  repeat (case_decide;
          [exfalso; apply H; subst exp; apply list_elem_of_In; simpl; tauto |]).
  reflexivity.
Qed.

Lemma get_config_state exp ctx st : snd (get_config exp ctx st) = st.
Proof. unfold get_config. repeat (case_decide; [reflexivity|]). reflexivity. Qed.

(** A known experiment has a configuration; its polarization noise is
    [sqrt 2] times the temperature noise. *)
Lemma get_config_known exp ctx st :
  exp ∈ experiments ->
  exists sN beam ellmin ellmax,
    get_config exp ctx st
    = (Return (sN, PFloat (sqrt 2 * to_R sN), beam, ellmin, ellmax), st).
Proof.
  intros H. apply list_elem_of_In in H. simpl in H.
  repeat (destruct H as [<-|H]; [do 4 eexists; unfold get_config; reflexivity|]).
  destruct H.
Qed.

Lemma get_config_inv exp ctx st cfg st' :
  get_config exp ctx st = (Return cfg, st') -> exp ∈ experiments /\ st' = st.
Proof.
  intros H. destruct (decide (exp ∈ experiments)) as [Hin|Hout].
  - split; [exact Hin|]. pose proof (get_config_state exp ctx st) as Hs.
    now rewrite H in Hs.
  - rewrite (get_config_raise exp ctx st Hout) in H. discriminate.
Qed.

(** C6. [get_config("Planck")] returns temperature noise 35, beam 7 arcmin,
    [ellmin = 10], [ellmax = 2048], and the polarization noise is the
    default [sqrt(2) * 35], no explicit value being set for it. *)
Theorem get_config_Planck ctx st :
  get_config "Planck" ctx st
  = (Return (PFloat 35, PFloat (sqrt 2 * 35), PFloat 7, 10, 2048), st).
Proof. reflexivity. Qed.

(** C7. For a name outside the registry [get_config] raises its
    "not implemented" assertion error, never returning the placeholder
    zero configuration; and whatever the name, the lookup leaves the state
    as it found it: no file is read, no directory touched. *)
Theorem get_config_unknown exp ctx st :
  exp ∉ experiments ->
  get_config exp ctx st
  = (Raise (AssertionError (MsgStr (exp +:+ " not implemented"))), st)
  /\ forall name ctx' st', snd (get_config name ctx' st') = st'.
Proof.
  intros H. split; [now apply get_config_raise|].
  intros. apply get_config_state.
Qed.

Lemma get_config_unknown_witness :
  get_config "not_a_real_experiment" ctx0 st0
  = (Raise (AssertionError
              (MsgStr "not_a_real_experiment not implemented")), st0)
  /\ forall name ctx' st', snd (get_config name ctx' st') = st'.
Proof.
  apply (get_config_unknown "not_a_real_experiment" ctx0 st0).
  intros H. apply list_elem_of_In in H. simpl in H. intuition discriminate.
Defined.

(** ** [get_fidcls] *)

Lemma emit_run e ctx st : emit e ctx st = (Return tt, log st [e]).
Proof. reflexivity. Qed.

Lemma log_log st a b : log (log st a) b = log st (a ++ b).
Proof. unfold log. cbn [disk trace]. now rewrite <- app_assoc. Qed.

Lemma read_clfile_run path ctx st :
  read_clfile path ctx st = (Return (camb_clfile ctx path), log st [ReadFile path]).
Proof. reflexivity. Qed.

Lemma read_txt_run path ctx st :
  read_txt path ctx st = (Return (loadtxt ctx path), log st [ReadFile path]).
Proof. reflexivity. Qed.

(** The dict built by the loop over the keys holds [f key v] at each key
    of the source dict, and nothing else. *)
Lemma lookup_dict_for_keys f (d : spectra) key :
  dict_for_keys f d !! key = f key <$> d !! key.
Proof.
  unfold dict_for_keys.
  apply (map_fold_weak_ind
           (fun (out d : spectra) => out !! key = f key <$> d !! key)).
  - now rewrite !lookup_empty.
  - intros i x m r Hi IH. destruct (decide (i = key)) as [->|Hne].
    + now rewrite !lookup_insert_eq.
    + now rewrite !lookup_insert_ne.
Qed.

Lemma get_fidcls_ok ellmax_sky wrotationCls ctx st root :
  environ ctx !! "LENSIT"%string = Some root ->
  get_fidcls ellmax_sky wrotationCls ctx st
  = (Return (fid_unl ctx ellmax_sky wrotationCls, fid_len ctx ellmax_sky),
     log st (fid_reads ctx wrotationCls)).
Proof.
  intros Henv. unfold get_fidcls.
  rewrite (bind_Return _ _ _ _ _ _ (get_lensitdir_ok _ _ _ Henv)).
  rewrite (bind_Return _ _ _ _ _ _ (read_clfile_run _ _ _)).
  cbv zeta. cbn [snd]. destruct wrotationCls.
  - erewrite bind_Return.
    2:{ rewrite (bind_Return _ _ _ _ _ _ (get_lensitdir_ok _ _ _ Henv)).
        rewrite (bind_Return _ _ _ _ _ _ (read_txt_run _ _ _)). reflexivity. }
    rewrite (bind_Return _ _ _ _ _ _ (get_lensitdir_ok _ _ _ Henv)).
    rewrite (bind_Return _ _ _ _ _ _ (read_clfile_run _ _ _)).
    rewrite !log_log. reflexivity.
  - erewrite bind_Return by reflexivity.
    rewrite (bind_Return _ _ _ _ _ _ (get_lensitdir_ok _ _ _ Henv)).
    rewrite (bind_Return _ _ _ _ _ _ (read_clfile_run _ _ _)).
    rewrite !log_log. reflexivity.
Qed.

Lemma get_fidcls_noenv ellmax_sky wrotationCls ctx st :
  environ ctx !! "LENSIT"%string = None ->
  get_fidcls ellmax_sky wrotationCls ctx st
  = (Raise (AssertionError
              (MsgStr "Set LENSIT env. variable to somewhere safe to write")), st).
Proof.
  intros Henv. unfold get_fidcls. apply bind_Raise.
  unfold _get_lensitdir, mbind, M_bind, bind, ask. now rewrite Henv.
Qed.

(** C9 (as amended). With the cache root set, [get_fidcls] returns:
    every lensed column cut to [0 : ellmax_sky + 1]; every unlensed column
    of the fiducial file cut likewise, except ['pp'], kept at the length
    of the file; and, when [wrotationCls] is set, the column ['oo'] which
    is the whole rotation file, not cut either. *)
Theorem get_fidcls_columns ellmax_sky wrotationCls ctx st root :
  environ ctx !! "LENSIT"%string = Some root ->
  exists cls_unl cls_len st',
    get_fidcls ellmax_sky wrotationCls ctx st = (Return (cls_unl, cls_len), st')
    /\ (forall key,
          cls_len !! key
          = slice_to (ellmax_sky + 1)
              <$> camb_clfile ctx (cls_file ctx "fiducial_flatsky_lensedCls.dat") !! key)
    /\ (forall key,
          key ≠ "pp"%string -> (key = "oo"%string -> wrotationCls = false) ->
          cls_unl !! key
          = slice_to (ellmax_sky + 1)
              <$> camb_clfile ctx (cls_file ctx "fiducial_flatsky_lenspotentialCls.dat") !! key)
    /\ cls_unl !! "pp"%string
       = camb_clfile ctx (cls_file ctx "fiducial_flatsky_lenspotentialCls.dat") !! "pp"%string
    /\ (wrotationCls = true ->
        cls_unl !! "oo"%string
        = Some (loadtxt ctx (cls_file ctx "fiducial_fieldrotationCls.dat"))).
Proof.
  intros Henv.
  pose proof (get_fidcls_ok ellmax_sky wrotationCls ctx st root Henv) as Hrun.
  do 3 eexists. split; [exact Hrun|]. unfold fid_unl, fid_len. cbv zeta.
  repeat split.
  - intros key. apply lookup_dict_for_keys.
  - intros key Hpp Hoo. destruct wrotationCls.
    + rewrite lookup_insert_ne by (intros <-; now specialize (Hoo eq_refl)).
      rewrite lookup_dict_for_keys.
      now destruct (decide (key = "pp"%string)).
    + rewrite lookup_dict_for_keys.
      now destruct (decide (key = "pp"%string)).
  - destruct wrotationCls; [rewrite lookup_insert_ne by discriminate|];
      rewrite lookup_dict_for_keys;
      (destruct (decide ("pp"%string = "pp"%string)); [|congruence]);
      exact (option_fmap_id _).
  - intros ->. now rewrite lookup_insert_eq.
Qed.

Lemma get_fidcls_columns_witness :
  exists cls_unl cls_len st',
    get_fidcls 1 true ctx_rot st0 = (Return (cls_unl, cls_len), st')
    /\ (forall key,
          cls_len !! key
          = slice_to (1 + 1)
              <$> camb_clfile ctx_rot
                    (cls_file ctx_rot "fiducial_flatsky_lensedCls.dat") !! key)
    /\ (forall key,
          key ≠ "pp"%string -> (key = "oo"%string -> true = false) ->
          cls_unl !! key
          = slice_to (1 + 1)
              <$> camb_clfile ctx_rot
                    (cls_file ctx_rot "fiducial_flatsky_lenspotentialCls.dat") !! key)
    /\ cls_unl !! "pp"%string
       = camb_clfile ctx_rot
           (cls_file ctx_rot "fiducial_flatsky_lenspotentialCls.dat") !! "pp"%string
    /\ (true = true ->
        cls_unl !! "oo"%string
        = Some (loadtxt ctx_rot (cls_file ctx_rot "fiducial_fieldrotationCls.dat"))).
Proof. apply (get_fidcls_columns 1 true ctx_rot st0 "/data"). reflexivity. Defined.

(** C9, the claim as stated fails: asked for [ellmax_sky = 1] with the
    rotation spectrum, [get_fidcls] returns the unlensed column ['oo'] with
    its three entries, not cut to the entries [0 .. 1]. *)
Lemma get_fidcls_oo_not_truncated :
  exists cls_unl cls_len st',
    get_fidcls 1 true ctx_rot st0 = (Return (cls_unl, cls_len), st')
    /\ cls_unl !! "oo"%string = Some [1; 2; 3]%R
    /\ slice_to (1 + 1) [1; 2; 3]%R = [1; 2]%R.
Proof.
  pose proof (get_fidcls_ok 1 true ctx_rot st0 "/data" eq_refl) as Hrun.
  do 3 eexists. split; [exact Hrun|]. split; [|reflexivity].
  unfold fid_unl. cbv zeta. now rewrite lookup_insert_eq.
Qed.

(** ** The generation loop and the barrier *)

Lemma for_each_get_sim pha l ctx st :
  for_each l (fun idx => get_sim pha idx) ctx st
  = (Return tt,
     {| disk := filled (pha_lib_dir pha) l (disk st);
        trace := trace st ++ map (GetSim (pha_lib_dir pha)) l |}).
Proof.
  revert st. induction l as [|idx l IH]; intros st.
  - cbn. rewrite app_nil_r. now destruct st.
  - cbn [for_each]. erewrite bind_Return by reflexivity.
    rewrite IH. cbn [disk trace filled foldl map].
    now rewrite <- app_assoc.
Qed.

Lemma fill_phases_run pha nsims ctx st :
  pha_nsims_max pha = nsims ->
  fill_phases pha nsims ctx st
  = (Return tt,
     {| disk := fill_disk ctx (disk st) (pha_lib_dir pha) nsims;
        trace := trace st ++ fill_events ctx (disk st) (pha_lib_dir pha) nsims |}).
Proof.
  intros Hn. unfold fill_phases, fill_disk, fill_events.
  erewrite bind_Return by reflexivity. cbv zeta.
  erewrite bind_Return by reflexivity. rewrite Hn.
  fold (full_on (disk st) (pha_lib_dir pha) nsims).
  fold (fill_go ctx (disk st) (pha_lib_dir pha) nsims).
  destruct (fill_go ctx (disk st) (pha_lib_dir pha) nsims).
  - erewrite bind_Return by apply for_each_get_sim.
    unfold barrier. rewrite emit_run. unfold log. cbn [disk trace].
    now rewrite <- !app_assoc.
  - erewrite bind_Return by reflexivity.
    unfold barrier. rewrite emit_run. unfold log. cbn [disk trace].
    now rewrite <- !app_assoc.
Qed.

Lemma filled_subseteq dir l d : d ⊆ filled dir l d.
Proof.
  revert d. induction l as [|idx l IH]; intros d; cbn; [done|].
  transitivity ({[ (dir, idx) ]} ∪ d); [set_solver | apply IH].
Qed.

Lemma forallb_false {A} (f : A -> bool) l :
  forallb f l = false -> exists x, In x l /\ f x = false.
Proof.
  induction l as [|a l IH]; cbn; [discriminate|].
  destruct (f a) eqn:Ha; cbn; intros H.
  - destruct (IH H) as (x & Hx & Hfx). exists x. auto.
  - exists a. auto.
Qed.

Lemma in_arange idx n : In idx (arange n) <-> 0 <= idx < n.
Proof.
  unfold arange. rewrite in_map_iff. split.
  - intros (k & <- & Hk). apply in_seq in Hk. lia.
  - intros H. exists (Z.to_nat idx). split; [lia|]. apply in_seq. lia.
Qed.

(** The loop runs only on rank 0 and only when a realization is missing. *)
Lemma fill_go_true ctx d dir nsims :
  fill_go ctx d dir nsims = true -> rank ctx = 0 /\ not_full d dir nsims.
Proof.
  unfold fill_go, full_on. intros H. apply andb_prop in H as [Hfull Hrank].
  split; [now apply Z.eqb_eq|].
  apply negb_true_iff in Hfull.
  destruct (forallb_false _ _ Hfull) as (idx & Hin & Hidx).
  exists idx. split; [now apply in_arange|].
  now apply bool_decide_eq_false in Hidx.
Qed.

Lemma fill_go_rank ctx d dir nsims :
  rank ctx ≠ 0 -> fill_go ctx d dir nsims = false.
Proof.
  intros H. unfold fill_go. apply andb_false_iff. right. now apply Z.eqb_neq.
Qed.

(** ** Guarded computations *)

Lemma guarded_ret n {A} (a : A) : guarded n (mret a : M A).
Proof.
  intros ctx st. exists []. cbn. rewrite app_nil_r.
  split; [|split; [|split]]; try done.
Qed.

Lemma guarded_raise n {A} e : guarded n (raise e : M A).
Proof.
  intros ctx st. exists []. cbn. rewrite app_nil_r.
  split; [|split; [|split]]; try done.
Qed.

Lemma guarded_ask n : guarded n ask.
Proof.
  intros ctx st. exists []. cbn. rewrite app_nil_r.
  split; [|split; [|split]]; try done.
Qed.

Lemma guarded_bind n {A B} (m : M A) (k : A -> M B) :
  guarded n m -> (forall a, guarded n (k a)) -> guarded n (m ≫= k).
Proof.
  intros Hm Hk ctx st. destruct (Hm ctx st) as (evs1 & Ht1 & Hd1 & Hr1 & Hg1).
  unfold mbind, M_bind, bind. destruct (m ctx st) as [[a|e] st1]; cbn [snd] in *.
  - destruct (Hk a ctx st1) as (evs2 & Ht2 & Hd2 & Hr2 & Hg2).
    exists (evs1 ++ evs2). split; [|split; [|split]].
    + now rewrite Ht2, Ht1, <- app_assoc.
    + etransitivity; eassumption.
    + intros Hrank. now rewrite Hr2, Hr1.
    + intros dir idx H. apply in_app_or in H as [H|H].
      * destruct (Hg1 dir idx H) as (Hrank & Hnf & a1 & b1 & Hevs & Hb).
        split; [exact Hrank|]. split; [exact Hnf|].
        exists a1, (b1 ++ evs2). split.
        -- rewrite Hevs, <- app_assoc. reflexivity.
        -- apply in_or_app. now left.
      * destruct (Hg2 dir idx H) as (Hrank & (i & Hi & Hmiss) & a2 & b2 & Hevs & Hb).
        split; [exact Hrank|]. split.
        -- exists i. split; [exact Hi|]. intros Hin. apply Hmiss. now apply Hd1.
        -- exists (evs1 ++ a2), b2. split; [|exact Hb].
           rewrite Hevs, <- app_assoc. reflexivity.
  - exists evs1. split; [|split; [|split]]; assumption.
Qed.

Lemma guarded_emit n e :
  (forall dir idx, e ≠ GetSim dir idx) -> guarded n (emit e).
Proof.
  intros He ctx st. exists [e]. cbn. split; [|split; [|split]]; try done.
  intros dir idx [H|[]]. now apply He in H.
Qed.

Lemma guarded_construct n {A} cls lib_dir (obj : A) :
  guarded n (construct cls lib_dir obj).
Proof.
  unfold construct. apply guarded_bind; [now apply guarded_emit|].
  intros _. apply guarded_ret.
Qed.

Lemma guarded_py_assert n b msg : guarded n (py_assert b msg).
Proof. destruct b; [apply guarded_ret | apply guarded_raise]. Qed.

Lemma guarded_get_lensitdir n : guarded n _get_lensitdir.
Proof.
  unfold _get_lensitdir. apply guarded_bind; [apply guarded_ask|].
  intros ctx. destruct (environ ctx !! _); [apply guarded_ret | apply guarded_raise].
Qed.

Lemma guarded_read_clfile n path : guarded n (read_clfile path).
Proof.
  unfold read_clfile. apply guarded_bind; [apply guarded_ask|]. intros ctx.
  apply guarded_bind; [now apply guarded_emit | intros _; apply guarded_ret].
Qed.

Lemma guarded_read_txt n path : guarded n (read_txt path).
Proof.
  unfold read_txt. apply guarded_bind; [apply guarded_ask|]. intros ctx.
  apply guarded_bind; [now apply guarded_emit | intros _; apply guarded_ret].
Qed.

Lemma guarded_get_config n exp : guarded n (get_config exp).
Proof.
  intros ctx st. exists []. rewrite get_config_state, app_nil_r.
  split; [|split; [|split]]; try done.
Qed.

Lemma guarded_get_ellmat n LD HD : guarded n (get_ellmat LD HD).
Proof.
  unfold get_ellmat. apply guarded_bind; [apply guarded_py_assert|]. intros _.
  apply guarded_bind; [apply guarded_get_lensitdir|]. intros dirs.
  apply guarded_construct.
Qed.

Lemma guarded_get_fidcls n ellmax_sky wrotationCls :
  guarded n (get_fidcls ellmax_sky wrotationCls).
Proof.
  unfold get_fidcls. apply guarded_bind; [apply guarded_get_lensitdir|]. intros dirs.
  apply guarded_bind; [apply guarded_read_clfile|]. intros cls_unlr.
  apply guarded_bind.
  - destruct wrotationCls; [|apply guarded_ret].
    apply guarded_bind; [apply guarded_get_lensitdir|]. intros dirs'.
    apply guarded_bind; [apply guarded_read_txt|]. intros oo. apply guarded_ret.
  - intros cls_unl. apply guarded_bind; [apply guarded_get_lensitdir|]. intros dirs'.
    apply guarded_bind; [apply guarded_read_clfile|]. intros cls_lenr.
    apply guarded_ret.
Qed.

Lemma guarded_fill_phases pha nsims :
  pha_nsims_max pha = nsims -> guarded nsims (fill_phases pha nsims).
Proof.
  intros Hn ctx st. rewrite (fill_phases_run pha nsims ctx st Hn). cbn [snd disk trace].
  exists (fill_events ctx (disk st) (pha_lib_dir pha) nsims).
  unfold fill_disk, fill_events. split; [|split; [|split]].
  - reflexivity.
  - destruct (fill_go _ _ _ _); [apply filled_subseteq | done].
  - intros Hrank. now rewrite fill_go_rank.
  - intros dir idx H. destruct H as [H|H]; [discriminate|].
    destruct (fill_go _ _ _ _) eqn:Hgo.
    + apply in_app_or in H as [H|[H|[]]]; [|discriminate].
      pose proof H as Hin.
      apply in_map_iff in H as (i & Heq & _). inversion Heq; subst.
      destruct (fill_go_true _ _ _ _ Hgo) as (Hrank & Hnf).
      split; [exact Hrank|]. split; [exact Hnf|].
      exists [], (map (GetSim (pha_lib_dir pha)) (arange (pha_nsims_max pha))
                  ++ [Barrier]).
      split; [|apply in_or_app; now left].
      unfold fill_go in Hgo. apply andb_prop in Hgo as [Hfull _].
      apply negb_true_iff in Hfull. now rewrite Hfull.
    + cbn in H. destruct H as [H|[]]. discriminate.
Qed.

(** ** The libraries *)

Lemma removelast_fill_events ctx d dir nsims :
  fill_events ctx d dir nsims
  = removelast (fill_events ctx d dir nsims) ++ [Barrier].
Proof. unfold fill_events. now rewrite app_comm_cons, removelast_last. Qed.

Section FactoryProofs.

Variable get_fields : spectra -> list string.
Variable gauss_beam : R -> Z -> list R.
Variable ellmax_of : ell_mat -> (Z -> bool) -> Z.

Lemma get_lencmbs_lib_ok res wrotation cache_sims nsims num_threads ctx st root :
  environ ctx !! "LENSIT"%string = Some root -> res <= 14 ->
  exists lib,
    get_lencmbs_lib get_fields ellmax_of res wrotation cache_sims nsims num_threads
      ctx st
    = (Return lib,
       {| disk := fill_disk ctx (disk st) (skypha_dir root res nsims wrotation) nsims;
          trace := trace st
                   ++ lencmbs_prelude ctx (disk st) root res nsims wrotation
                   ++ [Barrier; Construct "sims_cmb_len" (cmb_lib_dir lib)] |})
    /\ cmb_lib_dir lib = lencmbs_dir root res nsims wrotation
    /\ cmb_cls_unl lib = fid_unl ctx LMAX_SKY wrotation
    /\ alm_filt_func (cmb_lib_skyalm lib) = (fun ell => ell <=? LMAX_SKY)
    /\ em_lsides (alm_ell_mat (cmb_lib_skyalm lib)) = (lside res res, lside res res)
    /\ pha_lib_dir (cmb_lib_pha lib) = skypha_dir root res nsims wrotation
    /\ cmb_cache_lens lib = cache_sims
    /\ cmb_lib_pha lib
       = {| pha_lib_dir := skypha_dir root res nsims wrotation;
            pha_nfields :=
              Z.of_nat (length (get_fields (fid_unl ctx LMAX_SKY wrotation)));
            pha_geom := OnAlm (cmb_lib_skyalm lib);
            pha_nsims_max := nsims |}
    /\ cmb_lib_skyalm lib
       = ffs_alm_pyFFTW ellmax_of
           {| em_lib_dir := ellmat_dir root res res;
              em_shape := (pow2 res, pow2 res);
              em_lsides := (lside res res, lside res res) |}
           (fun ell => ell <=? LMAX_SKY) num_threads.
Proof.
  intros Henv Hres. unfold get_lencmbs_lib.
  destruct (get_ellmat_ok res res ctx st root Hres Hres Henv)
    as (em & Hem & Hdir & Hshape & Hsides).
  rewrite (bind_Return _ _ _ _ _ _ Hem). cbv zeta. rewrite Hsides, Hdir.
  fold (sky_fsky res).
  rewrite (bind_Return _ _ _ _ _ _ (get_lensitdir_ok _ _ _ Henv)). cbn [fst].
  fold (skypha_dir root res nsims wrotation).
  rewrite (bind_Return _ _ _ _ _ _ (get_fidcls_ok _ _ _ _ _ Henv)).
  unfold ffs_lib_phas.
  rewrite (bind_Return _ _ _ _ _ _ (construct_run _ _ _ _ _)).
  erewrite bind_Return by (apply fill_phases_run; reflexivity).
  rewrite (bind_Return _ _ _ _ _ _ (get_lensitdir_ok _ _ _ Henv)). cbn [fst].
  fold (lencmbs_dir root res nsims wrotation).
  rewrite construct_run.
  eexists (Build_sims_cmb_len _ _ _ _ _). split.
  - f_equal. unfold log, lencmbs_prelude. cbn [disk trace pha_lib_dir cmb_lib_dir].
    f_equal.
    rewrite (removelast_fill_events ctx (disk st)
               (skypha_dir root res nsims wrotation) nsims) at 1.
    rewrite <- !app_assoc. reflexivity.
  - repeat split; try reflexivity; cbn.
    + exact Hsides.
    + destruct em as [d sh ls]. cbn in Hdir, Hshape, Hsides. now subst.
Qed.

Lemma get_ellmat_inv LD HD ctx st em st' :
  get_ellmat LD HD ctx st = (Return em, st') ->
  HD <= 14 /\ LD <= 14 /\ exists root, environ ctx !! "LENSIT"%string = Some root.
Proof.
  intros H. destruct (Z_lt_le_dec 14 HD) as [HHD|HHD].
  { rewrite get_ellmat_raise in H by now left. discriminate. }
  destruct (Z_lt_le_dec 14 LD) as [HLD|HLD].
  { rewrite get_ellmat_raise in H by now right. discriminate. }
  destruct (environ ctx !! "LENSIT"%string) as [root|] eqn:Henv.
  - eauto.
  - rewrite get_ellmat_noenv in H by assumption. discriminate.
Qed.

Lemma get_lencmbs_lib_inv res wrotation cache_sims nsims num_threads ctx st lib st' :
  get_lencmbs_lib get_fields ellmax_of res wrotation cache_sims nsims num_threads
    ctx st = (Return lib, st') ->
  res <= 14 /\ exists root, environ ctx !! "LENSIT"%string = Some root.
Proof.
  intros H. unfold get_lencmbs_lib in H.
  apply bind_inv in H as (em & st1 & Hem & _).
  apply get_ellmat_inv in Hem as (Hres & _ & Hroot). auto.
Qed.

Lemma get_maps_lib_ok exp LDres HDres wrotation cache_lenalms cache_maps nsims
      num_threads ctx st root :
  environ ctx !! "LENSIT"%string = Some root ->
  exp ∈ experiments -> LDres <= 14 -> HDres <= 14 ->
  exists lib,
    get_maps_lib get_fields gauss_beam ellmax_of exp LDres HDres wrotation
      cache_lenalms cache_maps nsims num_threads ctx st
    = (Return lib,
       {| disk := fill_disk ctx
                    (fill_disk ctx (disk st)
                       (skypha_dir root HDres nsims wrotation) nsims)
                    (pixpha_dir root LDres HDres nsims) nsims;
          trace := trace st
                   ++ maps_prelude ctx (disk st) root LDres HDres nsims wrotation
                   ++ [Barrier; Construct "lib_noisemap" (map_lib_dir lib)] |})
    /\ map_lib_dir lib = maps_dir root exp LDres HDres nsims wrotation
    /\ pha_lib_dir (map_pix_pha lib) = pixpha_dir root LDres HDres nsims
    /\ cmb_lib_dir (map_lencmbs lib) = lencmbs_dir root HDres nsims wrotation
    /\ alm_filt_func (cmb_lib_skyalm (map_lencmbs lib))
       = (fun ell => ell <=? LMAX_SKY)
    /\ map_cache_sims lib = cache_maps.
Proof.
  intros Henv Hexp HLD HHD. unfold get_maps_lib.
  destruct (get_config_known exp ctx st Hexp) as (sN & beam & lmin & lmax & Hcfg).
  rewrite (bind_Return _ _ _ _ _ _ Hcfg). cbv beta iota.
  erewrite bind_Return by reflexivity.
  destruct (get_lencmbs_lib_ok HDres wrotation cache_lenalms nsims
              (OMP_NUM_THREADS ctx) ctx st root Henv HHD)
    as (len_cmbs & Hlen & Hlendir & Hunl & Hfilt & Hsides & Hpha & Hcache).
  rewrite (bind_Return _ _ _ _ _ _ Hlen). cbv zeta.
  match goal with
  | |- context [get_ellmat LDres HDres ≫= ?k] =>
      destruct (get_ellmat_ok LDres HDres ctx
                  {| disk := fill_disk ctx (disk st)
                               (skypha_dir root HDres nsims wrotation) nsims;
                     trace := trace st
                              ++ lencmbs_prelude ctx (disk st) root HDres nsims wrotation
                              ++ [Barrier;
                                  Construct "sims_cmb_len" (cmb_lib_dir len_cmbs)] |}
                  root HHD HLD Henv)
        as (em & Hem & Hemdir & Hshape & Hemsides)
  end.
  rewrite (bind_Return _ _ _ _ _ _ Hem). rewrite Hsides. fold (sky_fsky HDres).
  rewrite (bind_Return _ _ _ _ _ _ (get_lensitdir_ok _ _ _ Henv)). cbn [fst].
  fold (pixpha_dir root LDres HDres nsims).
  unfold pix_lib_phas.
  rewrite (bind_Return _ _ _ _ _ _ (construct_run _ _ _ _ _)).
  erewrite bind_Return by (apply fill_phases_run; reflexivity).
  rewrite (bind_Return _ _ _ _ _ _ (get_lensitdir_ok _ _ _ Henv)). cbn [fst].
  fold (maps_dir root exp LDres HDres nsims wrotation).
  rewrite construct_run.
  eexists (Build_lib_noisemap _ _ _ _ _ _ _ _ _). split.
  - f_equal. unfold log, maps_prelude.
    cbn [disk trace pha_lib_dir map_lib_dir]. rewrite Hemdir, Hlendir. f_equal.
    rewrite (removelast_fill_events ctx
               (fill_disk ctx (disk st) (skypha_dir root HDres nsims wrotation) nsims)
               (pixpha_dir root LDres HDres nsims) nsims) at 1.
    cbv zeta. rewrite <- !app_assoc. reflexivity.
  - cbn [map_lib_dir map_pix_pha pha_lib_dir map_lencmbs map_cache_sims].
    repeat split; assumption || reflexivity.
Qed.

Lemma get_maps_lib_inv exp LDres HDres wrotation cache_lenalms cache_maps nsims
      num_threads ctx st lib st' :
  get_maps_lib get_fields gauss_beam ellmax_of exp LDres HDres wrotation
    cache_lenalms cache_maps nsims num_threads ctx st = (Return lib, st') ->
  exp ∈ experiments /\ LDres <= 14 /\ HDres <= 14
  /\ exists root, environ ctx !! "LENSIT"%string = Some root.
Proof.
  intros H. unfold get_maps_lib in H.
  apply bind_inv in H as (cfg & st1 & Hcfg & H).
  apply get_config_inv in Hcfg as (Hexp & _).
  destruct cfg as [[[[sN sNP] beam] lmin] lmax].
  apply bind_inv in H as (ctx' & st2 & _ & H).
  apply bind_inv in H as (len_cmbs & st3 & Hlen & H).
  apply get_lencmbs_lib_inv in Hlen as (HHD & Hroot).
  apply bind_inv in H as (em & st4 & Hem & _).
  apply get_ellmat_inv in Hem as (_ & HLD & _). auto.
Qed.

Lemma guarded_bind_construct n {A B} cls lib_dir (obj : A) (k : A -> M B) :
  guarded n (k obj) -> guarded n (construct cls lib_dir obj ≫= k).
Proof.
  intros Hk.
  change (guarded n (emit (Construct cls lib_dir) ≫= fun _ => k obj)).
  apply guarded_bind; [now apply guarded_emit | intros _; exact Hk].
Qed.

Lemma guarded_get_lencmbs_lib res wrotation cache_sims nsims num_threads :
  guarded nsims
    (get_lencmbs_lib get_fields ellmax_of res wrotation cache_sims nsims num_threads).
Proof.
  unfold get_lencmbs_lib.
  apply guarded_bind; [apply guarded_get_ellmat|]. intros em. cbv zeta.
  apply guarded_bind; [apply guarded_get_lensitdir|]. intros dirs.
  apply guarded_bind; [apply guarded_get_fidcls|]. intros [cls_unl cls_len].
  unfold ffs_lib_phas. apply guarded_bind_construct.
  apply guarded_bind; [now apply guarded_fill_phases|]. intros _.
  apply guarded_bind; [apply guarded_get_lensitdir|]. intros dirs'.
  apply guarded_construct.
Qed.

Lemma guarded_get_maps_lib exp LDres HDres wrotation cache_lenalms cache_maps nsims
      num_threads :
  guarded nsims
    (get_maps_lib get_fields gauss_beam ellmax_of exp LDres HDres wrotation
       cache_lenalms cache_maps nsims num_threads).
Proof.
  unfold get_maps_lib.
  apply guarded_bind; [apply guarded_get_config|].
  intros [[[[sN sNP] beam] lmin] lmax].
  apply guarded_bind; [apply guarded_ask|]. intros ctx.
  apply guarded_bind; [apply guarded_get_lencmbs_lib|]. intros len_cmbs. cbv zeta.
  apply guarded_bind; [apply guarded_get_ellmat|]. intros em.
  apply guarded_bind; [apply guarded_get_lensitdir|]. intros dirs.
  unfold pix_lib_phas. apply guarded_bind_construct.
  apply guarded_bind; [now apply guarded_fill_phases|]. intros _.
  apply guarded_bind; [apply guarded_get_lensitdir|]. intros dirs'.
  apply guarded_construct.
Qed.

(** C1. In every call of [get_lencmbs_lib] and of [get_maps_lib],
    whatever its outcome, [get_sim] is called on a phase library only by
    the worker of rank 0 and only after [is_full()] of that library
    answered false (the library lacked a realization when the call
    started); a worker of another rank leaves the disk as it
    found it; and when a library is returned, the last two events of the
    call are the barrier and then the construction of that library. *)
Theorem phase_generation_guarded exp res LDres HDres wrotation cache_sims cache_maps
        nsims num_threads ctx st :
  (exists evs,
      trace (snd (get_lencmbs_lib get_fields ellmax_of res wrotation cache_sims
                    nsims num_threads ctx st)) = trace st ++ evs
      /\ (rank ctx ≠ 0 ->
          disk (snd (get_lencmbs_lib get_fields ellmax_of res wrotation cache_sims
                       nsims num_threads ctx st)) = disk st)
      /\ (forall dir idx,
            In (GetSim dir idx) evs ->
            rank ctx = 0 /\ not_full (disk st) dir nsims
            /\ after_failed_check evs dir idx)
      /\ (forall lib,
            fst (get_lencmbs_lib get_fields ellmax_of res wrotation cache_sims
                   nsims num_threads ctx st) = Return lib ->
            exists pre,
              evs = pre ++ [Barrier; Construct "sims_cmb_len" (cmb_lib_dir lib)]))
  /\ (exists evs,
        trace (snd (get_maps_lib get_fields gauss_beam ellmax_of exp LDres HDres
                      wrotation cache_sims cache_maps nsims num_threads ctx st))
        = trace st ++ evs
        /\ (rank ctx ≠ 0 ->
            disk (snd (get_maps_lib get_fields gauss_beam ellmax_of exp LDres HDres
                         wrotation cache_sims cache_maps nsims num_threads ctx st))
            = disk st)
        /\ (forall dir idx,
              In (GetSim dir idx) evs ->
              rank ctx = 0 /\ not_full (disk st) dir nsims
              /\ after_failed_check evs dir idx)
        /\ (forall lib,
              fst (get_maps_lib get_fields gauss_beam ellmax_of exp LDres HDres
                     wrotation cache_sims cache_maps nsims num_threads ctx st)
              = Return lib ->
              exists pre,
                evs = pre ++ [Barrier; Construct "lib_noisemap" (map_lib_dir lib)])).
Proof.
  split.
  - destruct (guarded_get_lencmbs_lib res wrotation cache_sims nsims num_threads
                ctx st) as (evs & Ht & _ & Hr & Hg).
    exists evs. split; [exact Ht|]. split; [exact Hr|]. split; [exact Hg|].
    intros lib Hlib.
    destruct (get_lencmbs_lib _ _ _ _ _ _ _ ctx st) as [r st'] eqn:Hrun.
    cbn [fst snd] in *. subst r.
    destruct (get_lencmbs_lib_inv _ _ _ _ _ _ _ _ _ Hrun) as (Hres & root & Henv).
    destruct (get_lencmbs_lib_ok res wrotation cache_sims nsims num_threads ctx st
                root Henv Hres) as (lib0 & Hok & _).
    rewrite Hok in Hrun. injection Hrun as Hlib0 Hst'. subst lib0 st'.
    cbn [trace] in Ht. apply app_inv_head in Ht.
    exists (lencmbs_prelude ctx (disk st) root res nsims wrotation).
    symmetry. exact Ht.
  - destruct (guarded_get_maps_lib exp LDres HDres wrotation cache_sims cache_maps
                nsims num_threads ctx st) as (evs & Ht & _ & Hr & Hg).
    exists evs. split; [exact Ht|]. split; [exact Hr|]. split; [exact Hg|].
    intros lib Hlib.
    destruct (get_maps_lib _ _ _ _ _ _ _ _ _ _ _ ctx st) as [r st'] eqn:Hrun.
    cbn [fst snd] in *. subst r.
    destruct (get_maps_lib_inv _ _ _ _ _ _ _ _ _ _ _ _ Hrun)
      as (Hexp & HLD & HHD & root & Henv).
    destruct (get_maps_lib_ok exp LDres HDres wrotation cache_sims cache_maps nsims
                num_threads ctx st root Henv Hexp HLD HHD) as (lib0 & Hok & _).
    rewrite Hok in Hrun. injection Hrun as Hlib0 Hst'. subst lib0 st'.
    cbn [trace] in Ht. apply app_inv_head in Ht.
    exists (maps_prelude ctx (disk st) root LDres HDres nsims wrotation).
    symmetry. exact Ht.
Qed.

End FactoryProofs.

(** ** Paths *)

Lemma append_cons x a b : String x a +:+ b = String x (a +:+ b).
Proof. reflexivity. Qed.

Lemma append_nil b : ""%string +:+ b = b.
Proof. reflexivity. Qed.

Lemma append_assoc_str a b c : (a +:+ b) +:+ c = a +:+ (b +:+ c).
Proof.
  induction a as [|x a IH]; [reflexivity|].
  rewrite !append_cons. f_equal. exact IH.
Qed.

Lemma append_nonempty a e : e ≠ ""%string -> a +:+ e ≠ ""%string.
Proof. destruct a; [now rewrite append_nil | now rewrite append_cons]. Qed.

Lemma endswith_slash_app a e :
  e ≠ ""%string -> endswith_slash (a +:+ e) = endswith_slash e.
Proof.
  intros He. induction a as [|x a IH]; [reflexivity|].
  rewrite append_cons. cbn [endswith_slash].
  destruct (a +:+ e) eqn:Hae; [|exact IH].
  now apply (append_nonempty a e He) in Hae.
Qed.

Lemma no_slash_endswith e : no_slash e = true -> endswith_slash e = false.
Proof.
  induction e as [|x e IH]; [reflexivity|]. cbn [no_slash endswith_slash].
  intros H. apply andb_prop in H as [Hx He].
  destruct e; [now apply negb_true_iff in Hx | auto].
Qed.

Lemma is_empty_app a e : e ≠ ""%string -> is_empty (a +:+ e) = false.
Proof.
  intros He. pose proof (append_nonempty a e He). now destruct (a +:+ e).
Qed.

(** The first separator of a path delimits its first component. *)
Lemma first_component a b x y :
  no_slash a = true -> no_slash b = true ->
  a +:+ String "/" x = b +:+ String "/" y -> a = b.
Proof.
  revert b. induction a as [|c a IH]; intros [|c' b] Ha Hb H;
    rewrite ?append_cons, ?append_nil in H; cbn in Ha, Hb.
  - reflexivity.
  - injection H as <- _. discriminate.
  - injection H as -> _. discriminate.
  - injection H as <- H. apply andb_prop in Ha as [_ Ha].
    apply andb_prop in Hb as [_ Hb]. f_equal. now apply IH.
Qed.

(** A component that does not start with the separator is appended,
    after a separator that only the path so far decides. *)
Lemma join_step_append P :
  exists sep, forall b, startswith_slash b = false -> join_step P b = P +:+ sep +:+ b.
Proof.
  destruct (is_empty P || endswith_slash P) eqn:HP.
  - exists ""%string. intros b Hb. unfold join_step. now rewrite Hb, HP.
  - exists "/"%string. intros b Hb. unfold join_step. now rewrite Hb, HP.
Qed.

Lemma join_step_twice P :
  exists pre,
  forall e m,
    no_slash e = true -> e ≠ ""%string -> startswith_slash m = false ->
    join_step (join_step P e) m = pre +:+ e +:+ String "/" m.
Proof.
  destruct (join_step_append P) as (sep & Hsep). exists (P +:+ sep).
  intros e m He Hne Hm.
  assert (Hse : startswith_slash e = false).
  { destruct e as [|c e]; [reflexivity|]. cbn in He |- *.
    apply andb_prop in He as [Hc _]. now apply negb_true_iff in Hc. }
  rewrite (Hsep e Hse). unfold join_step at 1. rewrite Hm.
  rewrite <- append_assoc_str.
  rewrite is_empty_app by exact Hne.
  rewrite endswith_slash_app by exact Hne.
  rewrite (no_slash_endswith e He). cbn [orb].
  now rewrite !append_assoc_str.
Qed.

Lemma experiments_plain exp :
  exp ∈ experiments -> no_slash exp = true /\ exp ≠ ""%string.
Proof.
  intros H. apply list_elem_of_In in H. simpl in H.
  repeat (destruct H as [<-|H]; [split; [reflexivity | discriminate]|]).
  destruct H.
Qed.

(** The path of the lensed-sky library tells the two values of [wrotation] apart. *)
Lemma lencmbs_dir_wrotation root res nsims w1 w2 :
  lencmbs_dir root res nsims w1 = lencmbs_dir root res nsims w2 -> w1 = w2.
Proof.
  unfold lencmbs_dir. cbn [os_path_join fold_left].
  set (P := join_step _ (_ +:+ fmt_04d _)).
  destruct (join_step_append P) as (sep & Hsep).
  rewrite !Hsep by (now destruct w1 || now destruct w2).
  intros H. apply String.app_inj in H. apply String.app_inj in H.
  destruct w1, w2; (reflexivity || discriminate H).
Qed.

(** The path of the noisy-map library tells the experiments apart. *)
Lemma maps_dir_exp root e1 e2 LDres HDres nsims w1 w2 :
  e1 ∈ experiments -> e2 ∈ experiments ->
  maps_dir root e1 LDres HDres nsims w1 = maps_dir root e2 LDres HDres nsims w2 ->
  e1 = e2.
Proof.
  intros H1 H2. apply experiments_plain in H1 as [Hs1 Hn1].
  apply experiments_plain in H2 as [Hs2 Hn2].
  unfold maps_dir. cbn [os_path_join fold_left].
  set (P := join_step _ (_ +:+ str LDres)).
  destruct (join_step_twice P) as (pre & Hpre).
  rewrite (Hpre e1) by (assumption || now destruct w1).
  rewrite (Hpre e2) by (assumption || now destruct w2).
  intros H. apply String.app_inj in H. now apply first_component in H.
Qed.

(** ** The sky-fraction bucket *)

Lemma np_round_IZR z : np_round (IZR z) = z.
Proof.
  unfold np_round. rewrite ZfloorZ.
  destruct (Rlt_dec (IZR z - IZR z) (1 / 2)) as [|Hn]; [reflexivity|].
  exfalso. apply Hn. lra.
Qed.

(** The square patch of resolution 14 is the full sky: bucket 1000. *)
Lemma sky_fsky_14 : sky_fsky 14 = 1000.
Proof.
  unfold sky_fsky, fsky_of, prod2. cbn [fst snd].
  rewrite lside_powerRZ. change (powerRZ 2 (14 - 14)) with 1%R.
  replace (sqrt (4 * PI) * 1 * (sqrt (4 * PI) * 1) / 4 / PI * 1000)%R
    with (IZR 1000).
  - apply np_round_IZR.
  - replace (sqrt (4 * PI) * 1 * (sqrt (4 * PI) * 1))%R with (4 * PI)%R
      by (rewrite <- sqrt_4PI_sqr at 1; ring).
    field. pose proof PI_RGT_0. lra.
Qed.

(** ** [get_isocov] *)

Lemma get_ellmat_run LD HD ctx st root :
  HD <= 14 -> LD <= 14 -> environ ctx !! "LENSIT"%string = Some root ->
  get_ellmat LD HD ctx st
  = (Return {| em_lib_dir := ellmat_dir root LD HD;
               em_shape := (pow2 LD, pow2 LD);
               em_lsides := (lside LD HD, lside LD HD) |},
     log st [Construct "ell_mat" (ellmat_dir root LD HD)]).
Proof.
  intros HHD HLD Henv.
  destruct (get_ellmat_ok LD HD ctx st root HHD HLD Henv)
    as ([d sh ls] & Hrun & Hd & Hsh & Hls).
  cbn in Hd, Hsh, Hls. subst. exact Hrun.
Qed.

Lemma scale_ones_lookup c n i :
  (i < Z.to_nat n)%nat -> scale c (np_ones n) !! i = Some c.
Proof.
  unfold scale, np_ones. generalize (Z.to_nat n). clear n. intros n. revert i.
  induction n as [|n IH]; intros i Hi; [lia|].
  destruct i as [|i]; cbn.
  - f_equal. apply Rmult_1_r.
  - apply IH. lia.
Qed.

Lemma scale_ones_length c n : length (scale c (np_ones n)) = Z.to_nat n.
Proof. unfold scale, np_ones. now rewrite length_map, repeat_length. Qed.

Section CovarianceProofs.

Variable gauss_beam : R -> Z -> list R.
Variable ellmax_of : ell_mat -> (Z -> bool) -> Z.

Lemma get_isocov_ok exp LD_res HD_res pyFFTWthreads ctx st root :
  environ ctx !! "LENSIT"%string = Some root ->
  exp ∈ experiments -> LD_res <= 14 -> HD_res <= 14 ->
  exists cov st' sN beam ellmin ellmax,
    get_config exp ctx st
    = (Return (sN, PFloat (sqrt 2 * to_R sN), beam, ellmin, ellmax), st)
    /\ get_isocov gauss_beam ellmax_of exp LD_res HD_res pyFFTWthreads ctx st
       = (Return cov, st')
    /\ cov_cls_noise cov
       = <["u"%string :=
             scale ((sqrt 2 * to_R sN * PI / 180 / 60) ^ 2) (np_ones (LMAX_SKY + 1))]>
         (<["q"%string :=
             scale ((sqrt 2 * to_R sN * PI / 180 / 60) ^ 2) (np_ones (LMAX_SKY + 1))]>
         (<["t"%string :=
             scale ((to_R sN * PI / 180 / 60) ^ 2) (np_ones (LMAX_SKY + 1))]> ∅))
    /\ alm_filt_func (cov_lib_skyalm cov) = (fun ell => ell <=? LMAX_SKY)
    /\ alm_filt_func (cov_lib_datalm cov)
       = (fun ell => (ellmin <=? ell) && (ell <=? ellmax)).
Proof.
  intros Henv Hexp HLD HHD. unfold get_isocov. cbv zeta.
  destruct (get_config_known exp ctx st Hexp) as (sN & beam & lmin & lmax & Hcfg).
  rewrite (bind_Return _ _ _ _ _ _ Hcfg). cbv beta iota.
  rewrite (bind_Return _ _ _ _ _ _ (get_fidcls_ok _ _ _ _ _ Henv)).
  rewrite (bind_Return _ _ _ _ _ _ (get_ellmat_run _ _ _ _ _ HHD HLD Henv)).
  rewrite (bind_Return _ _ _ _ _ _ (get_ellmat_run _ _ _ _ _ HHD HLD Henv)).
  rewrite (bind_Return _ _ _ _ _ _ (get_lensitdir_ok _ _ _ Henv)).
  rewrite construct_run.
  eexists (Build_ffs_diagcov_alm _ _ _ _ _ _ _), _, sN, beam, lmin, lmax.
  split; [exact Hcfg|]. split; [reflexivity|]. repeat split.
Qed.

(** C8. For a recognized experiment (cache root set, resolutions within
    the guard) [get_isocov] returns a covariance whose noise spectra
    ['t'], ['q'] and ['u'] are flat: at every multipole from 0 to
    [LMAX_SKY] they equal the square of the channel's noise level
    converted to radians, [(level * pi / 180 / 60)^2], the level being
    [sN_uKamin] for ['t'] and [sN_uKaminP] for ['q'] and ['u']; the
    arrays stop there. *)
Theorem get_isocov_noise exp LD_res HD_res pyFFTWthreads ctx st root :
  environ ctx !! "LENSIT"%string = Some root ->
  exp ∈ experiments -> LD_res <= 14 -> HD_res <= 14 ->
  exists cov st' sN_uKamin sN_uKaminP beam ellmin ellmax,
    get_config exp ctx st
    = (Return (sN_uKamin, sN_uKaminP, beam, ellmin, ellmax), st)
    /\ get_isocov gauss_beam ellmax_of exp LD_res HD_res pyFFTWthreads ctx st
       = (Return cov, st')
    /\ (forall ell,
          0 <= ell <= LMAX_SKY ->
          cl_at (cov_cls_noise cov) "t" ell
          = Some ((to_R sN_uKamin * PI / 180 / 60) ^ 2)%R
          /\ cl_at (cov_cls_noise cov) "q" ell
             = Some ((to_R sN_uKaminP * PI / 180 / 60) ^ 2)%R
          /\ cl_at (cov_cls_noise cov) "u" ell
             = Some ((to_R sN_uKaminP * PI / 180 / 60) ^ 2)%R)
    /\ (forall ell key, LMAX_SKY < ell -> cl_at (cov_cls_noise cov) key ell = None).
Proof.
  intros Henv Hexp HLD HHD.
  destruct (get_isocov_ok exp LD_res HD_res pyFFTWthreads ctx st root
              Henv Hexp HLD HHD)
    as (cov & st' & sN & beam & lmin & lmax & Hcfg & Hrun & Hnoise & _).
  exists cov, st', sN, (PFloat (sqrt 2 * to_R sN)), beam, lmin, lmax.
  split; [exact Hcfg|]. split; [exact Hrun|]. rewrite Hnoise. unfold cl_at.
  split.
  - intros ell Hell. cbn [to_R].
    rewrite lookup_insert_ne, lookup_insert_ne, lookup_insert_eq by discriminate.
    rewrite lookup_insert_ne, lookup_insert_eq by discriminate.
    rewrite lookup_insert_eq. cbn [mbind option_bind].
    rewrite !scale_ones_lookup by lia. auto.
  - intros ell key Hell.
    destruct (decide (key = "u"%string)) as [->|Hu];
      [rewrite lookup_insert_eq|rewrite lookup_insert_ne by congruence].
    { cbn [mbind option_bind]. apply lookup_ge_None.
      rewrite scale_ones_length. lia. }
    destruct (decide (key = "q"%string)) as [->|Hq];
      [rewrite lookup_insert_eq|rewrite lookup_insert_ne by congruence].
    { cbn [mbind option_bind]. apply lookup_ge_None.
      rewrite scale_ones_length. lia. }
    destruct (decide (key = "t"%string)) as [->|Ht];
      [rewrite lookup_insert_eq|rewrite lookup_insert_ne by congruence].
    { cbn [mbind option_bind]. apply lookup_ge_None.
      rewrite scale_ones_length. lia. }
    now rewrite lookup_empty.
Qed.

End CovarianceProofs.

(** ** Cache paths as identity, and the harmonic filters *)

Lemma dom_dict_for_keys f (d : spectra) : dom (dict_for_keys f d) = dom d.
Proof.
  apply set_eq. intros key. rewrite !elem_of_dom, lookup_dict_for_keys.
  apply fmap_is_Some.
Qed.

Lemma in_experiments_Planck : "Planck"%string ∈ experiments.
Proof. apply list_elem_of_In. simpl. tauto. Qed.

Lemma in_experiments_S4 : "S4"%string ∈ experiments.
Proof. apply list_elem_of_In. simpl. tauto. Qed.

Lemma skypha_dir_full_sky :
  skypha_dir "/data" 14 2 false = "/data/temp/2_sims/fsky1000/len_alms/skypha"%string.
Proof. unfold skypha_dir. rewrite sky_fsky_14. reflexivity. Qed.

Lemma lencmbs_dir_full_sky :
  lencmbs_dir "/data" 14 2 false = "/data/temp/2_sims/fsky1000/len_alms"%string.
Proof. unfold lencmbs_dir. rewrite sky_fsky_14. reflexivity. Qed.

Lemma pixpha_dir_full_sky :
  pixpha_dir "/data" 10 14 2 = "/data/temp/2_sims/fsky1000/res10/pixpha"%string.
Proof. unfold pixpha_dir. rewrite sky_fsky_14. reflexivity. Qed.

Section FactoryClaims.

Variable get_fields : spectra -> list string.
Variable gauss_beam : R -> Z -> list R.
Variable ellmax_of : ell_mat -> (Z -> bool) -> Z.

(** The fields of the library [get_maps_lib] returns. *)
Lemma get_maps_lib_fields exp LDres HDres wrotation cache_lenalms cache_maps nsims
      num_threads ctx st root :
  environ ctx !! "LENSIT"%string = Some root ->
  exp ∈ experiments -> LDres <= 14 -> HDres <= 14 ->
  exists lib st' len_cmbs st1 sN beam ellmin ellmax,
    get_config exp ctx st
    = (Return (sN, PFloat (sqrt 2 * to_R sN), beam, ellmin, ellmax), st)
    /\ get_lencmbs_lib get_fields ellmax_of HDres wrotation cache_lenalms nsims
         (OMP_NUM_THREADS ctx) ctx st = (Return len_cmbs, st1)
    /\ get_maps_lib get_fields gauss_beam ellmax_of exp LDres HDres wrotation
         cache_lenalms cache_maps nsims num_threads ctx st = (Return lib, st')
    /\ disk st'
       = fill_disk ctx
           (fill_disk ctx (disk st) (skypha_dir root HDres nsims wrotation) nsims)
           (pixpha_dir root LDres HDres nsims) nsims
    /\ map_lib_dir lib = maps_dir root exp LDres HDres nsims wrotation
    /\ map_lencmbs lib = len_cmbs
    /\ pha_lib_dir (cmb_lib_pha len_cmbs) = skypha_dir root HDres nsims wrotation
    /\ map_lib_datalm lib
       = ffs_alm_pyFFTW ellmax_of
           {| em_lib_dir := ellmat_dir root LDres HDres;
              em_shape := (pow2 LDres, pow2 LDres);
              em_lsides := (lside LDres HDres, lside LDres HDres) |}
           (fun ell => ell <=? alm_ellmax (cmb_lib_skyalm len_cmbs)) num_threads
    /\ map_cl_transf lib
       = gauss_beam (to_R beam / 60 * PI / 180) (alm_ellmax (cmb_lib_skyalm len_cmbs))
    /\ map_nTpix lib = (to_R sN / sqrt (vcell_amin2 LDres HDres))%R
    /\ map_nQpix lib = (sqrt 2 * to_R sN / sqrt (vcell_amin2 LDres HDres))%R
    /\ map_nUpix lib = (sqrt 2 * to_R sN / sqrt (vcell_amin2 LDres HDres))%R
    /\ map_pix_pha lib
       = {| pha_lib_dir := pixpha_dir root LDres HDres nsims;
            pha_nfields := 3;
            pha_geom := OnPix (pow2 LDres, pow2 LDres);
            pha_nsims_max := nsims |}
    /\ map_cache_sims lib = cache_maps.
Proof.
  intros Henv Hexp HLD HHD. unfold get_maps_lib.
  destruct (get_config_known exp ctx st Hexp) as (sN & beam & lmin & lmax & Hcfg).
  rewrite (bind_Return _ _ _ _ _ _ Hcfg). cbv beta iota.
  erewrite bind_Return by reflexivity.
  destruct (get_lencmbs_lib_ok get_fields ellmax_of HDres wrotation cache_lenalms nsims
              (OMP_NUM_THREADS ctx) ctx st root Henv HHD)
    as (len_cmbs & Hlen & Hlendir & Hunl & Hfilt & Hsides & Hpha & Hcache).
  rewrite (bind_Return _ _ _ _ _ _ Hlen). cbv zeta.
  rewrite (bind_Return _ _ _ _ _ _ (get_ellmat_run _ _ _ _ _ HHD HLD Henv)).
  rewrite Hsides. fold (sky_fsky HDres).
  rewrite (bind_Return _ _ _ _ _ _ (get_lensitdir_ok _ _ _ Henv)). cbn [fst].
  fold (pixpha_dir root LDres HDres nsims).
  unfold pix_lib_phas.
  rewrite (bind_Return _ _ _ _ _ _ (construct_run _ _ _ _ _)).
  erewrite bind_Return by (apply fill_phases_run; reflexivity).
  rewrite (bind_Return _ _ _ _ _ _ (get_lensitdir_ok _ _ _ Henv)). cbn [fst].
  fold (maps_dir root exp LDres HDres nsims wrotation).
  rewrite construct_run.
  eexists (Build_lib_noisemap _ _ _ _ _ _ _ _ _), _, len_cmbs, _, sN, beam, lmin, lmax.
  split; [exact Hcfg|]. split; [exact Hlen|]. split; [reflexivity|].
  cbn [disk log pha_lib_dir map_lib_dir map_lencmbs map_lib_datalm map_cl_transf
       map_nTpix map_nQpix map_nUpix map_pix_pha map_cache_sims].
  repeat split; try reflexivity. exact Hpha.
Qed.

(** C2 (as amended). Two calls of [get_lencmbs_lib] on the same cache
    root, [res] and [nsims] both return a library, and the two storage
    paths are equal exactly when the calls agree on [wrotation]: the
    path is computed from the root, [nsims], the sky-fraction bucket and
    [wrotation]; the values of the unlensed spectra, read from the files
    of either worker, do not enter it. *)
Theorem lencmbs_dir_key res nsims w1 w2 cache1 cache2 threads1 threads2
        ctx1 ctx2 st1 st2 root :
  environ ctx1 !! "LENSIT"%string = Some root ->
  environ ctx2 !! "LENSIT"%string = Some root ->
  res <= 14 ->
  exists lib1 st1' lib2 st2',
    get_lencmbs_lib get_fields ellmax_of res w1 cache1 nsims threads1 ctx1 st1
    = (Return lib1, st1')
    /\ get_lencmbs_lib get_fields ellmax_of res w2 cache2 nsims threads2 ctx2 st2
       = (Return lib2, st2')
    /\ (cmb_lib_dir lib1 = cmb_lib_dir lib2 <-> w1 = w2).
Proof.
  intros Henv1 Henv2 Hres.
  destruct (get_lencmbs_lib_ok get_fields ellmax_of res w1 cache1 nsims threads1
              ctx1 st1 root Henv1 Hres) as (lib1 & Hrun1 & Hdir1 & _).
  destruct (get_lencmbs_lib_ok get_fields ellmax_of res w2 cache2 nsims threads2
              ctx2 st2 root Henv2 Hres) as (lib2 & Hrun2 & Hdir2 & _).
  exists lib1. eexists. exists lib2. eexists.
  split; [exact Hrun1|]. split; [exact Hrun2|]. rewrite Hdir1, Hdir2. split.
  - apply lencmbs_dir_wrotation.
  - now intros ->.
Qed.

(** C3 (as amended). Two calls of [get_maps_lib] for different
    experiments, on the same cache root, [LDres], [HDres] and [nsims],
    both return a library; the two libraries of noisy maps are stored on
    different paths, but their pixel-noise phase libraries are stored on
    one and the same path, which does not mention the experiment. *)
Theorem maps_dir_key exp1 exp2 LDres HDres nsims w1 w2 lenalms1 lenalms2
        maps1 maps2 threads1 threads2 ctx1 ctx2 st1 st2 root :
  environ ctx1 !! "LENSIT"%string = Some root ->
  environ ctx2 !! "LENSIT"%string = Some root ->
  exp1 ∈ experiments -> exp2 ∈ experiments -> exp1 ≠ exp2 ->
  LDres <= 14 -> HDres <= 14 ->
  exists lib1 st1' lib2 st2',
    get_maps_lib get_fields gauss_beam ellmax_of exp1 LDres HDres w1 lenalms1 maps1
      nsims threads1 ctx1 st1 = (Return lib1, st1')
    /\ get_maps_lib get_fields gauss_beam ellmax_of exp2 LDres HDres w2 lenalms2
         maps2 nsims threads2 ctx2 st2 = (Return lib2, st2')
    /\ map_lib_dir lib1 ≠ map_lib_dir lib2
    /\ pha_lib_dir (map_pix_pha lib1) = pha_lib_dir (map_pix_pha lib2).
Proof.
  intros Henv1 Henv2 Hexp1 Hexp2 Hne HLD HHD.
  destruct (get_maps_lib_ok get_fields gauss_beam ellmax_of exp1 LDres HDres w1
              lenalms1 maps1 nsims threads1 ctx1 st1 root Henv1 Hexp1 HLD HHD)
    as (lib1 & Hrun1 & Hdir1 & Hpix1 & _).
  destruct (get_maps_lib_ok get_fields gauss_beam ellmax_of exp2 LDres HDres w2
              lenalms2 maps2 nsims threads2 ctx2 st2 root Henv2 Hexp2 HLD HHD)
    as (lib2 & Hrun2 & Hdir2 & Hpix2 & _).
  exists lib1. eexists. exists lib2. eexists.
  split; [exact Hrun1|]. split; [exact Hrun2|]. split.
  - rewrite Hdir1, Hdir2. intros H. apply Hne.
    now apply maps_dir_exp in H.
  - now rewrite Hpix1, Hpix2.
Qed.

(** C10. Whatever the resolutions, the experiment and its band limits,
    the sky-side harmonic filter of the libraries returned by
    [get_lencmbs_lib], [get_maps_lib] and [get_isocov] admits exactly
    the multipoles up to [LMAX_SKY = 5120]; the limits
    [(ellmin, ellmax)] of the experiment bound the data-side filter of
    [get_isocov] only: the data-side filter of [get_maps_lib], the one
    other data-side filter of the module, admits exactly the multipoles
    up to the band limit of its sky-side library. *)
Theorem sky_filter_LMAX_SKY exp res LD_res HD_res wrotation cache_sims cache_maps
        nsims num_threads ctx st root :
  environ ctx !! "LENSIT"%string = Some root ->
  exp ∈ experiments -> res <= 14 -> LD_res <= 14 -> HD_res <= 14 ->
  exists len_cmbs st1 maps st2 cov st3 sN sNP beam ellmin ellmax,
    get_lencmbs_lib get_fields ellmax_of res wrotation cache_sims nsims num_threads
      ctx st = (Return len_cmbs, st1)
    /\ get_maps_lib get_fields gauss_beam ellmax_of exp LD_res HD_res wrotation
         cache_sims cache_maps nsims num_threads ctx st = (Return maps, st2)
    /\ get_isocov gauss_beam ellmax_of exp LD_res HD_res num_threads ctx st
       = (Return cov, st3)
    /\ get_config exp ctx st = (Return (sN, sNP, beam, ellmin, ellmax), st)
    /\ LMAX_SKY = 5120
    /\ forall ell,
        (alm_filt_func (cmb_lib_skyalm len_cmbs) ell = true <-> ell <= LMAX_SKY)
        /\ (alm_filt_func (cmb_lib_skyalm (map_lencmbs maps)) ell = true
            <-> ell <= LMAX_SKY)
        /\ (alm_filt_func (cov_lib_skyalm cov) ell = true <-> ell <= LMAX_SKY)
        /\ (alm_filt_func (cov_lib_datalm cov) ell = true
            <-> ellmin <= ell <= ellmax)
        /\ (alm_filt_func (map_lib_datalm maps) ell = true
            <-> ell <= alm_ellmax (cmb_lib_skyalm (map_lencmbs maps))).
Proof.
  intros Henv Hexp Hres HLD HHD.
  destruct (get_lencmbs_lib_ok get_fields ellmax_of res wrotation cache_sims nsims
              num_threads ctx st root Henv Hres)
    as (len_cmbs & Hrun1 & _ & _ & Hf1 & _).
  destruct (get_maps_lib_ok get_fields gauss_beam ellmax_of exp LD_res HD_res
              wrotation cache_sims cache_maps nsims num_threads ctx st root
              Henv Hexp HLD HHD)
    as (maps & Hrun2 & _ & _ & _ & Hf2 & _).
  destruct (get_maps_lib_fields exp LD_res HD_res wrotation cache_sims cache_maps
              nsims num_threads ctx st root Henv Hexp HLD HHD)
    as (maps' & st2 & len' & st' & sN' & beam' & lmin' & lmax' & _ & _ & Hrun2' & _
        & _ & Hlen' & _ & Hdat & _).
  rewrite Hrun2 in Hrun2'. injection Hrun2' as <- _.
  destruct (get_isocov_ok gauss_beam ellmax_of exp LD_res HD_res num_threads ctx st
              root Henv Hexp HLD HHD)
    as (cov & st3 & sN & beam & lmin & lmax & Hcfg & Hrun3 & _ & Hf3 & Hf4).
  exists len_cmbs. eexists. exists maps. eexists.
  exists cov, st3, sN, (PFloat (sqrt 2 * to_R sN)), beam, lmin, lmax.
  split; [exact Hrun1|]. split; [exact Hrun2|]. split; [exact Hrun3|].
  split; [exact Hcfg|]. split; [reflexivity|].
  intros ell. rewrite Hf1, Hf2, Hf3, Hf4, Hdat, Hlen'.
  cbn [alm_filt_func ffs_alm_pyFFTW].
  rewrite andb_true_iff, !Z.leb_le. tauto.
Qed.

End FactoryClaims.

(** ** Reuse of the phases on disk *)

Lemma filled_elem dir l d idx : In idx l -> (dir, idx) ∈ filled dir l d.
Proof.
  revert d. induction l as [|i l IH]; intros d; [intros []|].
  intros [->|Hin]; cbn.
  - apply (filled_subseteq dir l). set_solver.
  - now apply IH.
Qed.

Lemma fill_disk_subseteq ctx d dir nsims : d ⊆ fill_disk ctx d dir nsims.
Proof.
  unfold fill_disk. destruct (fill_go _ _ _ _); [apply filled_subseteq | done].
Qed.

(** Once the worker of rank 0 went through [fill_phases], the library is full. *)
Lemma full_after_fill ctx d dir nsims idx :
  rank ctx = 0 -> 0 <= idx < nsims -> (dir, idx) ∈ fill_disk ctx d dir nsims.
Proof.
  intros Hrank Hidx. unfold fill_disk.
  destruct (fill_go ctx d dir nsims) eqn:Hgo.
  - apply filled_elem. now apply in_arange.
  - unfold fill_go, full_on in Hgo. apply andb_false_iff in Hgo as [Hfull|Hr].
    + apply negb_false_iff in Hfull.
      rewrite forallb_forall in Hfull.
      specialize (Hfull idx (proj2 (in_arange idx nsims) Hidx)).
      now apply bool_decide_eq_true in Hfull.
    + apply Z.eqb_neq in Hr. contradiction.
Qed.

(** On a full library no worker runs the loop. *)
Lemma fill_go_full ctx d dir nsims :
  (forall idx, 0 <= idx < nsims -> (dir, idx) ∈ d) -> fill_go ctx d dir nsims = false.
Proof.
  intros Hfull. unfold fill_go, full_on. apply andb_false_iff. left.
  apply negb_false_iff, forallb_forall. intros idx Hin.
  apply bool_decide_eq_true, Hfull. now apply in_arange.
Qed.

(** ** The claims on the sample environments *)

(** C2, the claim as stated fails: two workers whose fiducial files give
    different unlensed spectra (same columns, same cache root, [res],
    [nsims] and phase library) resolve to the same lensed-sky directory. *)
Lemma lencmbs_dir_shared_by_spectra :
  exists lib_a st_a lib_b st_b,
    get_lencmbs_lib keys_of ellmax_sky_of 14 false true 2 1 ctx_a st0
    = (Return lib_a, st_a)
    /\ get_lencmbs_lib keys_of ellmax_sky_of 14 false true 2 1 ctx_b st0
       = (Return lib_b, st_b)
    /\ cmb_cls_unl lib_a ≠ cmb_cls_unl lib_b
    /\ cmb_lib_pha lib_a = cmb_lib_pha lib_b
    /\ cmb_lib_dir lib_a = "/data/temp/2_sims/fsky1000/len_alms"%string
    /\ cmb_lib_dir lib_b = "/data/temp/2_sims/fsky1000/len_alms"%string.
Proof.
  destruct (get_lencmbs_lib_ok keys_of ellmax_sky_of 14 false true 2 1 ctx_a st0
              "/data" eq_refl ltac:(lia))
    as (lib_a & Hrun_a & Hdir_a & Hunl_a & _ & _ & _ & _ & Hpha_a & Hsky_a).
  destruct (get_lencmbs_lib_ok keys_of ellmax_sky_of 14 false true 2 1 ctx_b st0
              "/data" eq_refl ltac:(lia))
    as (lib_b & Hrun_b & Hdir_b & Hunl_b & _ & _ & _ & _ & Hpha_b & Hsky_b).
  exists lib_a. eexists. exists lib_b. eexists.
  split; [exact Hrun_a|]. split; [exact Hrun_b|]. split; [|split; [|split]].
  - rewrite Hunl_a, Hunl_b. intros Heq.
    assert (Hat : fid_unl ctx_a LMAX_SKY false !! "tt"%string
                  = fid_unl ctx_b LMAX_SKY false !! "tt"%string) by now rewrite Heq.
    unfold fid_unl in Hat. cbv zeta in Hat.
    rewrite !lookup_dict_for_keys in Hat. cbn [camb_clfile ctx_a ctx_b] in Hat.
    rewrite !lookup_singleton_eq in Hat. cbn in Hat.
    injection Hat as Hat. lra.
  - rewrite Hpha_a, Hpha_b, Hsky_a, Hsky_b. unfold keys_of, fid_unl. cbv zeta.
    rewrite !dom_dict_for_keys. cbn [camb_clfile ctx_a ctx_b].
    now rewrite !dom_singleton_L.
  - rewrite Hdir_a. apply lencmbs_dir_full_sky.
  - rewrite Hdir_b. apply lencmbs_dir_full_sky.
Qed.

Lemma lencmbs_dir_key_witness :
  exists lib1 st1' lib2 st2',
    get_lencmbs_lib keys_of ellmax_sky_of 14 false true 2 1 ctx_a st0
    = (Return lib1, st1')
    /\ get_lencmbs_lib keys_of ellmax_sky_of 14 true true 2 1 ctx_b st0
       = (Return lib2, st2')
    /\ (cmb_lib_dir lib1 = cmb_lib_dir lib2 <-> false = true).
Proof.
  apply (lencmbs_dir_key keys_of ellmax_sky_of 14 2 false true true true 1 1
           ctx_a ctx_b st0 st0 "/data"); [reflexivity | reflexivity | lia].
Defined.

(** C3, the claim as stated fails: [get_maps_lib] is called for Planck
    and then, on the disk the first call leaves, for S4. Both libraries
    take their pixel-noise phases from the same directory, and the second
    call generates no phase at all: S4 reuses the noise phases of Planck. *)
Lemma pixel_phases_shared_by_experiments :
  exists lib1 st1 lib2 st2,
    get_maps_lib keys_of beam_one ellmax_sky_of "Planck" 10 14 false true false 2 1
      ctx0 st0 = (Return lib1, st1)
    /\ get_maps_lib keys_of beam_one ellmax_sky_of "S4" 10 14 false true false 2 1
         ctx0 st1 = (Return lib2, st2)
    /\ pha_lib_dir (map_pix_pha lib1)
       = "/data/temp/2_sims/fsky1000/res10/pixpha"%string
    /\ pha_lib_dir (map_pix_pha lib2)
       = "/data/temp/2_sims/fsky1000/res10/pixpha"%string
    /\ exists evs,
         trace st2 = trace st1 ++ evs
         /\ forall dir idx, ~ In (GetSim dir idx) evs.
Proof.
  destruct (get_maps_lib_ok keys_of beam_one ellmax_sky_of "Planck" 10 14 false true
              false 2 1 ctx0 st0 "/data" eq_refl in_experiments_Planck
              ltac:(lia) ltac:(lia))
    as (lib1 & Hrun1 & _ & Hpix1 & _).
  set (st1 := {| disk := fill_disk ctx0
                           (fill_disk ctx0 (disk st0) (skypha_dir "/data" 14 2 false) 2)
                           (pixpha_dir "/data" 10 14 2) 2;
                 trace := trace st0
                          ++ maps_prelude ctx0 (disk st0) "/data" 10 14 2 false
                          ++ [Barrier; Construct "lib_noisemap" (map_lib_dir lib1)] |})
    in Hrun1.
  destruct (get_maps_lib_ok keys_of beam_one ellmax_sky_of "S4" 10 14 false true
              false 2 1 ctx0 st1 "/data" eq_refl in_experiments_S4
              ltac:(lia) ltac:(lia))
    as (lib2 & Hrun2 & _ & Hpix2 & _).
  exists lib1, st1, lib2. eexists.
  split; [exact Hrun1|]. split; [exact Hrun2|].
  split; [now rewrite Hpix1, pixpha_dir_full_sky|].
  split; [now rewrite Hpix2, pixpha_dir_full_sky|].
  eexists. split; [reflexivity|].
  assert (Hsky : fill_go ctx0 (disk st1) (skypha_dir "/data" 14 2 false) 2 = false).
  { apply fill_go_full. intros idx Hidx. cbn [disk st1].
    apply fill_disk_subseteq. now apply full_after_fill. }
  assert (Hpix : fill_go ctx0
                   (fill_disk ctx0 (disk st1) (skypha_dir "/data" 14 2 false) 2)
                   (pixpha_dir "/data" 10 14 2) 2 = false).
  { apply fill_go_full. intros idx Hidx. apply fill_disk_subseteq. cbn [disk st1].
    now apply full_after_fill. }
  intros dir idx. unfold maps_prelude, lencmbs_prelude, fill_events. cbv zeta.
  rewrite Hsky, Hpix. cbn. intuition discriminate.
Qed.

Lemma maps_dir_key_witness :
  exists lib1 st1' lib2 st2',
    get_maps_lib keys_of beam_one ellmax_sky_of "Planck" 10 14 false true false
      2 1 ctx0 st0 = (Return lib1, st1')
    /\ get_maps_lib keys_of beam_one ellmax_sky_of "S4" 10 14 false true false
         2 1 ctx0 st0 = (Return lib2, st2')
    /\ map_lib_dir lib1 ≠ map_lib_dir lib2
    /\ pha_lib_dir (map_pix_pha lib1) = pha_lib_dir (map_pix_pha lib2).
Proof.
  apply (maps_dir_key keys_of beam_one ellmax_sky_of "Planck" "S4" 10 14 2
           false false true true false false 1 1 ctx0 ctx0 st0 st0 "/data").
  - reflexivity.
  - reflexivity.
  - apply list_elem_of_In. simpl. tauto.
  - apply list_elem_of_In. simpl. tauto.
  - discriminate.
  - lia.
  - lia.
Defined.

Lemma get_isocov_noise_witness :
  exists cov st' sN_uKamin sN_uKaminP beam ellmin ellmax,
    get_config "Planck" ctx0 st0
    = (Return (sN_uKamin, sN_uKaminP, beam, ellmin, ellmax), st0)
    /\ get_isocov beam_one ellmax_sky_of "Planck" 10 14 1 ctx0 st0 = (Return cov, st')
    /\ (forall ell,
          0 <= ell <= LMAX_SKY ->
          cl_at (cov_cls_noise cov) "t" ell
          = Some ((to_R sN_uKamin * PI / 180 / 60) ^ 2)%R
          /\ cl_at (cov_cls_noise cov) "q" ell
             = Some ((to_R sN_uKaminP * PI / 180 / 60) ^ 2)%R
          /\ cl_at (cov_cls_noise cov) "u" ell
             = Some ((to_R sN_uKaminP * PI / 180 / 60) ^ 2)%R)
    /\ (forall ell key, LMAX_SKY < ell -> cl_at (cov_cls_noise cov) key ell = None).
Proof.
  apply (get_isocov_noise beam_one ellmax_sky_of "Planck" 10 14 1 ctx0 st0 "/data").
  - reflexivity.
  - apply list_elem_of_In. simpl. tauto.
  - lia.
  - lia.
Defined.

Lemma sky_filter_LMAX_SKY_witness :
  exists len_cmbs st1 maps st2 cov st3 sN sNP beam ellmin ellmax,
    get_lencmbs_lib keys_of ellmax_sky_of 14 false true 2 1 ctx0 st0
    = (Return len_cmbs, st1)
    /\ get_maps_lib keys_of beam_one ellmax_sky_of "Planck" 10 14 false true false
         2 1 ctx0 st0 = (Return maps, st2)
    /\ get_isocov beam_one ellmax_sky_of "Planck" 10 14 1 ctx0 st0 = (Return cov, st3)
    /\ get_config "Planck" ctx0 st0 = (Return (sN, sNP, beam, ellmin, ellmax), st0)
    /\ LMAX_SKY = 5120
    /\ forall ell,
        (alm_filt_func (cmb_lib_skyalm len_cmbs) ell = true <-> ell <= LMAX_SKY)
        /\ (alm_filt_func (cmb_lib_skyalm (map_lencmbs maps)) ell = true
            <-> ell <= LMAX_SKY)
        /\ (alm_filt_func (cov_lib_skyalm cov) ell = true <-> ell <= LMAX_SKY)
        /\ (alm_filt_func (cov_lib_datalm cov) ell = true <-> ellmin <= ell <= ellmax)
        /\ (alm_filt_func (map_lib_datalm maps) ell = true
            <-> ell <= alm_ellmax (cmb_lib_skyalm (map_lencmbs maps))).
Proof.
  apply (sky_filter_LMAX_SKY keys_of beam_one ellmax_sky_of "Planck" 14 10 14 false
           true false 2 1 ctx0 st0 "/data").
  - reflexivity.
  - apply list_elem_of_In. simpl. tauto.
  - lia.
  - lia.
  - lia.
Defined.

(** The leader at work: on an empty disk, the worker of rank 0 generates
    the two phases of the library, then meets the barrier, then builds. *)
Example leader_generates :
  exists lib st',
    get_lencmbs_lib keys_of ellmax_sky_of 14 false true 2 1 ctx0 st0 = (Return lib, st')
    /\ trace st'
       = [Construct "ell_mat" "/data/temp/ellmats/ellmat_14_14";
          ReadFile "/pkg/lensit/data/cls/fiducial_flatsky_lenspotentialCls.dat";
          ReadFile "/pkg/lensit/data/cls/fiducial_flatsky_lensedCls.dat";
          Construct "ffs_lib_phas" "/data/temp/2_sims/fsky1000/len_alms/skypha";
          IsFull "/data/temp/2_sims/fsky1000/len_alms/skypha" false;
          GetSim "/data/temp/2_sims/fsky1000/len_alms/skypha" 0;
          GetSim "/data/temp/2_sims/fsky1000/len_alms/skypha" 1;
          Barrier;
          Construct "sims_cmb_len" "/data/temp/2_sims/fsky1000/len_alms"].
Proof.
  destruct (get_lencmbs_lib_ok keys_of ellmax_sky_of 14 false true 2 1 ctx0 st0
              "/data" eq_refl ltac:(lia)) as (lib & Hrun & Hdir & _).
  exists lib. eexists. split; [exact Hrun|].
  cbn [trace st0 app]. rewrite Hdir, lencmbs_dir_full_sky.
  unfold lencmbs_prelude, fill_events. rewrite skypha_dir_full_sky.
  reflexivity.
Qed.

(** A worker of another rank on the same empty disk generates nothing: it
    goes to the barrier and builds its library. *)
Example follower_waits :
  exists lib st',
    get_lencmbs_lib keys_of ellmax_sky_of 14 false true 2 1 ctx_follower st0
    = (Return lib, st')
    /\ disk st' = ∅
    /\ trace st'
       = [Construct "ell_mat" "/data/temp/ellmats/ellmat_14_14";
          ReadFile "/pkg/lensit/data/cls/fiducial_flatsky_lenspotentialCls.dat";
          ReadFile "/pkg/lensit/data/cls/fiducial_flatsky_lensedCls.dat";
          Construct "ffs_lib_phas" "/data/temp/2_sims/fsky1000/len_alms/skypha";
          IsFull "/data/temp/2_sims/fsky1000/len_alms/skypha" false;
          Barrier;
          Construct "sims_cmb_len" "/data/temp/2_sims/fsky1000/len_alms"].
Proof.
  destruct (get_lencmbs_lib_ok keys_of ellmax_sky_of 14 false true 2 1 ctx_follower
              st0 "/data" eq_refl ltac:(lia)) as (lib & Hrun & Hdir & _).
  exists lib. eexists. split; [exact Hrun|]. split.
  - cbn [disk]. unfold fill_disk. now rewrite fill_go_rank.
  - cbn [trace st0 app]. rewrite Hdir, lencmbs_dir_full_sky.
    unfold lencmbs_prelude, fill_events. rewrite skypha_dir_full_sky.
    reflexivity.
Qed.

(** * Further properties of the module *)

(** ** Strings and paths *)

Lemma no_slash_lacks s : no_slash s = lacks "/" s.
Proof. induction s as [|x s IH]; [reflexivity|]. cbn. now rewrite IH. Qed.

Lemma lacks_app c a b : lacks c (a +:+ b) = lacks c a && lacks c b.
Proof.
  induction a as [|x a IH]; [reflexivity|].
  rewrite append_cons. cbn [lacks]. rewrite IH. now rewrite andb_assoc.
Qed.

Lemma no_slash_app a b : no_slash (a +:+ b) = no_slash a && no_slash b.
Proof. rewrite !no_slash_lacks. apply lacks_app. Qed.

(** A separator that neither prefix contains delimits the prefix. *)
Lemma first_component_at c a b x y :
  lacks c a = true -> lacks c b = true ->
  a +:+ String c x = b +:+ String c y -> a = b /\ x = y.
Proof.
  revert b. induction a as [|u a IH]; intros [|v b] Ha Hb H;
    rewrite ?append_cons, ?append_nil in H; cbn in Ha, Hb.
  - injection H as ->. auto.
  - injection H as <- _. rewrite Ascii.eqb_refl in Hb. discriminate.
  - injection H as -> _. rewrite Ascii.eqb_refl in Ha. discriminate.
  - injection H as <- H. apply andb_prop in Ha as [_ Ha].
    apply andb_prop in Hb as [_ Hb].
    destruct (IH b Ha Hb H) as [-> ->]. auto.
Qed.

Lemma plain_startswith e : plain e -> startswith_slash e = false.
Proof.
  intros [Hne Hs]. destruct e as [|c e]; [reflexivity|]. cbn in Hs |- *.
  apply andb_prop in Hs as [Hc _]. now apply negb_true_iff in Hc.
Qed.

(** Plain components are laid out one after the other. *)
Lemma fold_join_plain l : forall p c,
  plain c -> Forall plain l ->
  fold_left join_step l (p +:+ c) = p +:+ slash_concat (c :: l).
Proof.
  induction l as [|d l IH]; intros p c Hc Hl; [reflexivity|].
  inversion Hl as [|d' l' Hd Hl' Heq]; subst.
  cbn [fold_left]. unfold join_step at 2.
  rewrite (plain_startswith d Hd).
  destruct Hc as [Hne Hs].
  rewrite is_empty_app by exact Hne.
  rewrite endswith_slash_app by exact Hne.
  rewrite (no_slash_endswith c Hs). cbn [orb].
  replace ((p +:+ c) +:+ "/" +:+ d) with ((p +:+ c +:+ "/") +:+ d)
    by now rewrite !append_assoc_str.
  rewrite (IH (p +:+ c +:+ "/") d Hd Hl').
  change (slash_concat (c :: d :: l)) with (c +:+ String "/" (slash_concat (d :: l))).
  now rewrite !append_assoc_str.
Qed.

Lemma os_path_join_plain a :
  exists pre, forall c l,
    plain c -> Forall plain l -> os_path_join a (c :: l) = pre +:+ slash_concat (c :: l).
Proof.
  destruct (join_step_append a) as (sep & Hsep). exists (a +:+ sep).
  intros c l Hc Hl. unfold os_path_join. cbn [fold_left].
  rewrite (Hsep c (plain_startswith c Hc)).
  rewrite <- append_assoc_str. now apply fold_join_plain.
Qed.

Lemma slash_concat_inj l : forall l',
  Forall plain l -> Forall plain l' -> length l = length l' ->
  slash_concat l = slash_concat l' -> l = l'.
Proof.
  induction l as [|c l IH]; intros [|c' l'] Hl Hl' Hlen H; try discriminate.
  - reflexivity.
  - inversion Hl as [|? ? Hc Htl]; inversion Hl' as [|? ? Hc' Htl']; subst.
    destruct l as [|d l], l' as [|d' l']; try discriminate.
    + cbn in H. now subst.
    + change (c +:+ String "/" (slash_concat (d :: l))
              = c' +:+ String "/" (slash_concat (d' :: l'))) in H.
      destruct Hc as [_ Hs], Hc' as [_ Hs']. rewrite no_slash_lacks in Hs, Hs'.
      destruct (first_component_at _ _ _ _ _ Hs Hs' H) as [-> Hrest].
      f_equal. apply IH; auto.
Qed.

(** Two paths made of as many plain components under one root are equal
    only if the components are. *)
Lemma os_path_join_inj a c l c' l' :
  Forall plain (c :: l) -> Forall plain (c' :: l') -> length l = length l' ->
  os_path_join a (c :: l) = os_path_join a (c' :: l') -> c :: l = c' :: l'.
Proof.
  intros H H' Hlen Heq. destruct (os_path_join_plain a) as (pre & Hpre).
  inversion H; inversion H'; subst.
  rewrite !Hpre in Heq by assumption. apply String.app_inj in Heq.
  apply slash_concat_inj; auto. cbn. now f_equal.
Qed.

(** ** Decimal numerals *)

Lemma not_numeric_digits c :
  not_numeric c = true ->
  Forall (fun d => Ascii.eqb d c = false)
    ["0"; "1"; "2"; "3"; "4"; "5"; "6"; "7"; "8"; "9"; "-"]%char.
Proof.
  unfold not_numeric. intros H. apply negb_true_iff in H.
  apply Forall_forall. intros d Hd.
  destruct (Ascii.eqb d c) eqn:Hdc; [|reflexivity].
  assert (Hex : existsb (fun d => Ascii.eqb d c)
                  ["0"; "1"; "2"; "3"; "4"; "5"; "6"; "7"; "8"; "9"; "-"]%char = true).
  { apply existsb_exists. exists d. split; [|exact Hdc].
    now apply list_elem_of_In. }
  congruence.
Qed.

Lemma string_of_uint_lacks c u :
  not_numeric c = true -> lacks c (NilEmpty.string_of_uint u) = true.
Proof.
  intros H. apply not_numeric_digits in H.
  repeat match goal with
         | H : Forall _ (_ :: _) |- _ =>
             let H1 := fresh "Hd" in
             apply Forall_cons_iff in H as [H1 H]
         end.
  induction u as [|u IH|u IH|u IH|u IH|u IH|u IH|u IH|u IH|u IH|u IH];
    cbn [NilEmpty.string_of_uint lacks]; [reflexivity|..];
    rewrite IH, andb_true_r; apply negb_true_iff; assumption.
Qed.

Lemma str_lacks c z : not_numeric c = true -> lacks c (str z) = true.
Proof.
  intros H. unfold str, NilZero.string_of_int.
  assert (Hu : forall u, lacks c (NilZero.string_of_uint u) = true).
  { intros u. destruct u; try apply (string_of_uint_lacks c _ H).
    change (negb (Ascii.eqb "0" c) && true = true).
    apply not_numeric_digits in H. apply Forall_cons_iff in H as [H _].
    now rewrite H. }
  destruct (Z.to_int z) as [u|u]; [apply Hu|].
  cbn [lacks]. rewrite Hu, andb_true_r. apply negb_true_iff.
  apply not_numeric_digits in H.
  do 10 apply Forall_cons_iff in H as [_ H]. now apply Forall_cons_iff in H as [H _].
Qed.

Lemma str_nonempty z : str z ≠ ""%string.
Proof.
  unfold str, NilZero.string_of_int.
  destruct z as [|p|p]; cbn [Z.to_int]; [discriminate| |discriminate].
  pose proof (Unsigned.to_uint_nonnil p) as Hp.
  destruct (Pos.to_uint p); (contradiction || discriminate).
Qed.

(** The decimal numeral determines the integer. *)
Lemma str_inj z1 z2 : str z1 = str z2 -> z1 = z2.
Proof.
  unfold str. intros H.
  assert (Hnn : forall z, Z.to_int z ≠ Decimal.Pos Decimal.Nil
                          /\ Z.to_int z ≠ Decimal.Neg Decimal.Nil).
  { intros [|p|p]; cbn; split; try discriminate;
      intros Heq; injection Heq as Heq; now apply Unsigned.to_uint_nonnil in Heq. }
  apply (f_equal NilZero.int_of_string) in H.
  rewrite !NilZero.isi in H by apply Hnn.
  injection H as H. apply (f_equal Z.of_int) in H. now rewrite !of_to in H.
Qed.

Lemma str_plain z : plain (str z).
Proof.
  split; [apply str_nonempty|]. rewrite no_slash_lacks. now apply str_lacks.
Qed.

(** ** Components of the cache paths *)

Lemma literal_plain c s : no_slash (String c s) = true -> plain (String c s).
Proof. intros H. split; [discriminate | exact H]. Qed.

Lemma zeros_no_slash n : no_slash (zeros n) = true.
Proof. unfold zeros. induction n as [|n IH]; [reflexivity|]. cbn. exact IH. Qed.

Lemma fmt_04d_no_slash z : no_slash (fmt_04d z) = true.
Proof.
  unfold fmt_04d, zfill. destruct (z <? 0);
    rewrite ?no_slash_app, ?zeros_no_slash;
    destruct (str_plain z) as [_ H1]; destruct (str_plain (- z)) as [_ H2];
    now rewrite ?H1, ?H2.
Qed.

Lemma ellmat_name_plain LD HD : plain ("ellmat_" +:+ str HD +:+ "_" +:+ str LD).
Proof.
  split; [rewrite append_cons; discriminate|].
  rewrite !no_slash_app. destruct (str_plain HD) as [_ ->].
  destruct (str_plain LD) as [_ ->]. reflexivity.
Qed.

Lemma sims_name_plain n : plain (str n +:+ "_sims").
Proof.
  split; [now apply append_nonempty|].
  rewrite no_slash_app. now destruct (str_plain n) as [_ ->].
Qed.

Lemma fsky_name_plain f : plain ("fsky" +:+ fmt_04d f).
Proof.
  split; [rewrite append_cons; discriminate|].
  rewrite no_slash_app, fmt_04d_no_slash. reflexivity.
Qed.

Lemma res_name_plain LD : plain ("res" +:+ str LD).
Proof.
  split; [rewrite append_cons; discriminate|].
  rewrite no_slash_app. now destruct (str_plain LD) as [_ ->].
Qed.

Lemma cov_name_plain LD HD : plain ("LD" +:+ str LD +:+ "HD" +:+ str HD).
Proof.
  split; [rewrite append_cons; discriminate|].
  rewrite !no_slash_app. destruct (str_plain HD) as [_ ->].
  destruct (str_plain LD) as [_ ->]. reflexivity.
Qed.

Lemma wcurl_name_plain c s w :
  no_slash (String c s) = true -> plain (String c s +:+ bool_times w "_wcurl").
Proof.
  intros H. split; [rewrite append_cons; discriminate|].
  rewrite no_slash_app, H. now destruct w.
Qed.

Lemma experiment_plain exp : exp ∈ experiments -> plain exp.
Proof. intros H. destruct (experiments_plain exp H). now split. Qed.

(** Each component the module puts in a cache path is plain. *)
Ltac plain_components :=
  repeat (apply Forall_cons_iff; split); try apply Forall_nil;
  first [ exact I | apply ellmat_name_plain | apply sims_name_plain | apply fsky_name_plain
        | apply res_name_plain | apply cov_name_plain
        | now apply experiment_plain | now apply wcurl_name_plain
        | now apply literal_plain ].

Lemma ellmat_dir_inj root LD1 HD1 LD2 HD2 :
  ellmat_dir root LD1 HD1 = ellmat_dir root LD2 HD2 -> LD1 = LD2 /\ HD1 = HD2.
Proof.
  unfold ellmat_dir. intros H.
  apply os_path_join_inj in H; [| plain_components | plain_components | reflexivity].
  injection H as H. apply String.app_inj in H.
  apply first_component_at in H as [H1 H2]; try (now apply str_lacks).
  apply str_inj in H1, H2. auto.
Qed.

Lemma cov_dir_inj root e1 LD1 HD1 e2 LD2 HD2 :
  e1 ∈ experiments -> e2 ∈ experiments ->
  cov_dir root e1 LD1 HD1 = cov_dir root e2 LD2 HD2 ->
  e1 = e2 /\ LD1 = LD2 /\ HD1 = HD2.
Proof.
  unfold cov_dir. intros He1 He2 H.
  apply os_path_join_inj in H; [| plain_components | plain_components | reflexivity].
  injection H as He H. apply String.app_inj in H.
  apply first_component_at in H as [H1 H2]; try (now apply str_lacks).
  injection H2 as H2. apply str_inj in H1, H2. auto.
Qed.

Lemma maps_dir_inj root e1 LD1 HD1 n1 w1 e2 LD2 HD2 n2 w2 :
  e1 ∈ experiments -> e2 ∈ experiments ->
  maps_dir root e1 LD1 HD1 n1 w1 = maps_dir root e2 LD2 HD2 n2 w2 ->
  e1 = e2 /\ LD1 = LD2 /\ n1 = n2 /\ w1 = w2.
Proof.
  unfold maps_dir. intros He1 He2 H.
  apply os_path_join_inj in H; [| plain_components | plain_components | reflexivity].
  injection H as Hn _ HLD He Hw.
  apply first_component_at in Hn as [Hn _]; try (now apply str_lacks).
  apply String.app_inj in HLD. apply str_inj in Hn, HLD.
  repeat split; try assumption.
  destruct w1, w2; (reflexivity || discriminate Hw).
Qed.

(** The sky phases and the pixel phases never share a directory. *)
Lemma skypha_pixpha_distinct root res n w LD HD n' :
  skypha_dir root res n w ≠ pixpha_dir root LD HD n'.
Proof.
  unfold skypha_dir, pixpha_dir. intros H.
  apply os_path_join_inj in H; [| plain_components | plain_components | reflexivity].
  injection H as _ _ _ H. destruct w; discriminate H.
Qed.

(** ** Numbers, again *)

Lemma powerRZ_2_nonpos z : z <= 0 -> (0 < powerRZ 2 z <= 1)%R.
Proof.
  intros Hz. split; [apply powerRZ_lt; lra|].
  destruct z as [|p|p]; [cbn; lra | lia |].
  cbn [powerRZ]. rewrite <- Rinv_1.
  apply Rinv_le_contravar; [lra | apply pow_R1_Rle; lra].
Qed.

Lemma np_round_small x : (0 <= x < 1 / 2)%R -> np_round x = 0.
Proof.
  intros Hx. unfold np_round.
  assert (Hf : Zfloor x = 0) by (apply Zfloor_eq; cbn; lra).
  rewrite Hf. destruct (Rlt_dec (x - 0) (1 / 2)) as [|Hn]; [reflexivity|].
  exfalso. apply Hn. lra.
Qed.

(** Below resolution 9 the patch is less than half a thousandth of the sky. *)
Lemma sky_fsky_small res : res <= 8 -> sky_fsky res = 0.
Proof.
  intros Hres. unfold sky_fsky, fsky_of, prod2. cbn [fst snd].
  rewrite lside_powerRZ. apply np_round_small.
  replace (res - 14) with ((- 6) + (res - 8)) by lia.
  rewrite powerRZ_add by lra.
  destruct (powerRZ_2_nonpos (res - 8) ltac:(lia)) as [Hq0 Hq1].
  set (q := powerRZ 2 (res - 8)) in *.
  replace (powerRZ 2 (- 6)) with (/ 64)%R
    by (change (powerRZ 2 (- 6)) with (/ 2 ^ 6)%R;
        replace (2 ^ 6)%R with 64%R by (simpl; ring); reflexivity).
  replace (sqrt (4 * PI) * (/ 64 * q) * (sqrt (4 * PI) * (/ 64 * q)) / 4 / PI * 1000)%R
    with (1000 / 4096 * (q * q))%R.
  - assert (0 < q * q <= 1)%R by nra. lra.
  - replace (sqrt (4 * PI) * (/ 64 * q) * (sqrt (4 * PI) * (/ 64 * q)))%R
      with (sqrt (4 * PI) * sqrt (4 * PI) * (/ 64 * q) * (/ 64 * q))%R by ring.
    rewrite sqrt_4PI_sqr. field. pose proof PI_RGT_0. lra.
Qed.

Lemma lcell_amin_pos LDres HDres : (0 < lcell_amin LDres HDres)%R.
Proof.
  unfold lcell_amin. pose proof PI_RGT_0 as Hpi.
  assert (0 < sqrt (4 * PI))%R by (apply sqrt_lt_R0; lra).
  assert (0 < powerRZ 2 (HDres - LDres))%R by (apply powerRZ_lt; lra).
  assert (0 < IZR (2 ^ 14))%R by (apply IZR_lt; reflexivity).
  assert (0 < 180 * 60 / PI)%R by (apply Rdiv_lt_0_compat; lra).
  apply Rmult_lt_0_compat; [|assumption].
  apply Rmult_lt_0_compat; [|assumption].
  now apply Rdiv_lt_0_compat.
Qed.

(** The side of a pixel is the square root of its area. *)
Lemma sqrt_vcell_amin2 LDres HDres :
  sqrt (vcell_amin2 LDres HDres) = lcell_amin LDres HDres.
Proof.
  assert (Heq : vcell_amin2 LDres HDres
                = (lcell_amin LDres HDres * lcell_amin LDres HDres)%R).
  { unfold vcell_amin2, lcell_amin, lside, prod2. cbn [fst snd].
    rewrite !to_R_pow2.
    assert (powerRZ 2 LDres ≠ 0)%R by (apply powerRZ_NOR; lra).
    assert (IZR (2 ^ 14) ≠ 0)%R by (apply not_0_IZR; discriminate).
    pose proof PI_RGT_0. field. repeat split; try assumption; lra. }
  rewrite Heq. apply sqrt_square. left. apply lcell_amin_pos.
Qed.

(** ** Disk and runs, again *)

Lemma elem_of_filled dir l d x :
  x ∈ filled dir l d <-> x ∈ d \/ exists idx, In idx l /\ x = (dir, idx).
Proof.
  revert d. induction l as [|i l IH]; intros d.
  - cbn. split; [auto | intros [H|(idx & [] & _)]; exact H].
  - change (filled dir (i :: l) d) with (filled dir l ({[ (dir, i) ]} ∪ d)).
    rewrite IH, elem_of_union, elem_of_singleton. cbn [In]. split.
    + intros [[->|H]|(idx & Hin & ->)]; eauto.
    + intros [H|(idx & [<-|Hin] & ->)]; eauto.
Qed.

(** What the worker of rank 0 leaves on disk: what was there, and every
    realization of the library. *)
Lemma elem_of_fill_disk ctx d dir nsims x :
  rank ctx = 0 ->
  x ∈ fill_disk ctx d dir nsims
  <-> x ∈ d \/ exists idx, 0 <= idx < nsims /\ x = (dir, idx).
Proof.
  intros Hrank. split.
  - unfold fill_disk. destruct (fill_go ctx d dir nsims); [|auto].
    rewrite elem_of_filled. intros [H|(idx & Hin & ->)]; [auto|].
    right. exists idx. split; [now apply in_arange | reflexivity].
  - intros [H|(idx & Hidx & ->)].
    + now apply fill_disk_subseteq.
    + now apply full_after_fill.
Qed.

Lemma fill_disk_rank ctx d dir nsims :
  rank ctx ≠ 0 -> fill_disk ctx d dir nsims = d.
Proof. intros H. unfold fill_disk. now rewrite fill_go_rank. Qed.

Lemma get_fidtenscls_run ellmax_sky ctx st root :
  environ ctx !! "LENSIT"%string = Some root ->
  get_fidtenscls ellmax_sky ctx st
  = (Return (dict_for_keys (fun _ v => slice_to (ellmax_sky + 1) v)
               (camb_clfile ctx (cls_file ctx "fiducial_tensCls.dat"))),
     log st [ReadFile (cls_file ctx "fiducial_tensCls.dat")]).
Proof.
  intros Henv. unfold get_fidtenscls.
  rewrite (bind_Return _ _ _ _ _ _ (get_lensitdir_ok _ _ _ Henv)).
  now rewrite (bind_Return _ _ _ _ _ _ (read_clfile_run _ _ _)).
Qed.

Lemma lensitdir_noenv ctx st :
  environ ctx !! "LENSIT"%string = None ->
  _get_lensitdir ctx st = (Raise no_LENSIT, st).
Proof.
  intros Henv. unfold _get_lensitdir, mbind, M_bind, bind, ask. now rewrite Henv.
Qed.

(** Prefixes of a list read as the list does, as far as they go. *)
Lemma slice_to_lookup {A} (n : Z) (l : list A) (i : nat) :
  0 <= n ->
  slice_to n l !! i = if decide (i < Z.to_nat n)%nat then l !! i else None.
Proof.
  intros Hn. unfold slice_to.
  destruct (Z.leb_spec 0 n) as [_|Hneg]; [apply lookup_take | lia].
Qed.

Lemma slice_to_length {A} (n : Z) (l : list A) :
  length (slice_to n l)
  = if 0 <=? n then Nat.min (Z.to_nat n) (length l)
    else (length l - Z.to_nat (- n))%nat.
Proof.
  unfold slice_to. destruct (0 <=? n); rewrite length_take; [reflexivity | lia].
Qed.

(** ** The geometry and its cache path *)

(** X1. Within the guard, for [HD_res - LD_res < 1024] (beyond, Python
    cannot convert [2 ** (HD_res - LD_res)] to a float) and with the
    cache root set, [get_ellmat] builds a square patch whose side,
    [sqrt(4 pi) * 2 ^ (HD_res - 14)] radians, depends on [HD_res] only;
    its area is [4 pi * 4 ^ (HD_res - 14)], and for [LD_res >= 0] it is
    sampled on [2 ^ LD_res] points a side. *)
Theorem get_ellmat_geometry LD HD ctx st root :
  LD <= 14 -> HD <= 14 -> HD - LD < 1024 ->
  environ ctx !! "LENSIT"%string = Some root ->
  exists em st',
    get_ellmat LD HD ctx st = (Return em, st')
    /\ em_lsides em = ((sqrt (4 * PI) * powerRZ 2 (HD - 14))%R,
                       (sqrt (4 * PI) * powerRZ 2 (HD - 14))%R)
    /\ prod2 (em_lsides em) = (4 * PI * powerRZ 2 (2 * (HD - 14)))%R
    /\ (0 <= LD -> em_shape em = (PInt (2 ^ LD), PInt (2 ^ LD))).
Proof.
  intros HLD HHD _ Henv.
  destruct (get_ellmat_ok LD HD ctx st root HHD HLD Henv)
    as (em & Hrun & _ & Hshape & Hsides).
  exists em. eexists. split; [exact Hrun|].
  rewrite Hsides, Hshape, lside_powerRZ. split; [reflexivity|]. split.
  - unfold prod2. cbn [fst snd].
    replace (2 * (HD - 14)) with ((HD - 14) + (HD - 14)) by lia.
    rewrite powerRZ_add by lra.
    replace (sqrt (4 * PI) * powerRZ 2 (HD - 14)
             * (sqrt (4 * PI) * powerRZ 2 (HD - 14)))%R
      with (sqrt (4 * PI) * sqrt (4 * PI)
            * (powerRZ 2 (HD - 14) * powerRZ 2 (HD - 14)))%R by ring.
    now rewrite sqrt_4PI_sqr.
  - intros H0. unfold pow2. destruct (Z.leb_spec 0 LD); [reflexivity | lia].
Qed.

Lemma get_ellmat_geometry_witness :
  exists em st',
    get_ellmat 10 12 ctx0 st0 = (Return em, st')
    /\ em_lsides em = ((sqrt (4 * PI) * powerRZ 2 (12 - 14))%R,
                       (sqrt (4 * PI) * powerRZ 2 (12 - 14))%R)
    /\ prod2 (em_lsides em) = (4 * PI * powerRZ 2 (2 * (12 - 14)))%R
    /\ (0 <= 10 -> em_shape em = (PInt (2 ^ 10), PInt (2 ^ 10))).
Proof.
  apply (get_ellmat_geometry 10 12 ctx0 st0 "/data");
    [lia | lia | lia | reflexivity].
Defined.

(** X2. On one cache root, two geometries are built on the same cache
    directory only if they have the same two resolutions. *)
Theorem ellmat_dir_identifies_geometry LD1 HD1 LD2 HD2 ctx1 ctx2 st1 st2 root :
  LD1 <= 14 -> HD1 <= 14 -> LD2 <= 14 -> HD2 <= 14 ->
  environ ctx1 !! "LENSIT"%string = Some root ->
  environ ctx2 !! "LENSIT"%string = Some root ->
  exists em1 st1' em2 st2',
    get_ellmat LD1 HD1 ctx1 st1 = (Return em1, st1')
    /\ get_ellmat LD2 HD2 ctx2 st2 = (Return em2, st2')
    /\ (em_lib_dir em1 = em_lib_dir em2 <-> LD1 = LD2 /\ HD1 = HD2).
Proof.
  intros HLD1 HHD1 HLD2 HHD2 Henv1 Henv2.
  destruct (get_ellmat_ok LD1 HD1 ctx1 st1 root HHD1 HLD1 Henv1)
    as (em1 & Hrun1 & Hdir1 & _).
  destruct (get_ellmat_ok LD2 HD2 ctx2 st2 root HHD2 HLD2 Henv2)
    as (em2 & Hrun2 & Hdir2 & _).
  exists em1. eexists. exists em2. eexists.
  split; [exact Hrun1|]. split; [exact Hrun2|]. rewrite Hdir1, Hdir2. split.
  - apply ellmat_dir_inj.
  - now intros [-> ->].
Qed.

Lemma ellmat_dir_identifies_geometry_witness :
  exists em1 st1' em2 st2',
    get_ellmat 7 14 ctx0 st0 = (Return em1, st1')
    /\ get_ellmat 14 7 ctx0 st0 = (Return em2, st2')
    /\ (em_lib_dir em1 = em_lib_dir em2 <-> 7 = 14 /\ 14 = 7).
Proof.
  apply (ellmat_dir_identifies_geometry 7 14 14 7 ctx0 ctx0 st0 st0 "/data");
    (lia || reflexivity).
Defined.

(** ** Failures *)

Section FailureProofs.

Variable get_fields : spectra -> list string.
Variable gauss_beam : R -> Z -> list R.
Variable ellmax_of : ell_mat -> (Z -> bool) -> Z.

(** X3. Without the cache root in the environment, every entry point
    that passes its own checks raises the same assertion error and
    touches nothing: the two readers of fiducial spectra (which read
    nothing under the cache root), the geometry (for
    [HD_res - LD_res < 1024]: beyond, Python fails on the side of a cell
    before it looks for the cache root), and the three factories.
    [get_isocov] raises it whatever the resolutions. *)
Theorem missing_cache_root exp res LD HD ellmax_sky wrotation cache_sims cache_maps
        nsims num_threads ctx st :
  environ ctx !! "LENSIT"%string = None ->
  get_fidcls ellmax_sky wrotation ctx st = (Raise no_LENSIT, st)
  /\ get_fidtenscls ellmax_sky ctx st = (Raise no_LENSIT, st)
  /\ (LD <= 14 -> HD <= 14 -> HD - LD < 1024 ->
      get_ellmat LD HD ctx st = (Raise no_LENSIT, st))
  /\ (res <= 14 ->
      get_lencmbs_lib get_fields ellmax_of res wrotation cache_sims nsims num_threads
        ctx st = (Raise no_LENSIT, st))
  /\ (exp ∈ experiments -> HD <= 14 ->
      get_maps_lib get_fields gauss_beam ellmax_of exp LD HD wrotation cache_sims
        cache_maps nsims num_threads ctx st = (Raise no_LENSIT, st))
  /\ (exp ∈ experiments ->
      get_isocov gauss_beam ellmax_of exp LD HD num_threads ctx st
      = (Raise no_LENSIT, st)).
Proof.
  intros Henv.
  assert (Hlen : forall r w c, r <= 14 ->
            get_lencmbs_lib get_fields ellmax_of r w c nsims num_threads ctx st
            = (Raise no_LENSIT, st)).
  { intros r w c Hr. unfold get_lencmbs_lib. apply bind_Raise.
    now apply get_ellmat_noenv. }
  split; [now apply get_fidcls_noenv|]. split.
  { unfold get_fidtenscls. apply bind_Raise. now apply lensitdir_noenv. }
  split; [intros; now apply get_ellmat_noenv|]. split; [apply Hlen|]. split.
  - intros Hexp HHD. unfold get_maps_lib.
    destruct (get_config_known exp ctx st Hexp) as (sN & beam & lmin & lmax & Hcfg).
    rewrite (bind_Return _ _ _ _ _ _ Hcfg). cbv beta iota.
    erewrite bind_Return by reflexivity. apply bind_Raise.
    unfold get_lencmbs_lib. apply bind_Raise. now apply get_ellmat_noenv.
  - intros Hexp. unfold get_isocov. cbv zeta.
    destruct (get_config_known exp ctx st Hexp) as (sN & beam & lmin & lmax & Hcfg).
    rewrite (bind_Return _ _ _ _ _ _ Hcfg). cbv beta iota.
    apply bind_Raise. now apply get_fidcls_noenv.
Qed.

(** X4. [get_lencmbs_lib] is all or nothing: with [res <= 14] and the
    cache root set it returns a library; otherwise it raises and leaves
    the state as it found it. *)
Theorem get_lencmbs_lib_all_or_nothing res wrotation cache_sims nsims num_threads
        ctx st :
  (res <= 14 /\ is_Some (environ ctx !! "LENSIT"%string)
   /\ exists lib st',
        get_lencmbs_lib get_fields ellmax_of res wrotation cache_sims nsims
          num_threads ctx st = (Return lib, st'))
  \/ ((14 < res \/ environ ctx !! "LENSIT"%string = None)
      /\ exists e,
           get_lencmbs_lib get_fields ellmax_of res wrotation cache_sims nsims
             num_threads ctx st = (Raise e, st)).
Proof.
  destruct (Z_lt_le_dec 14 res) as [Hbig|Hres].
  { right. split; [now left|]. eexists. unfold get_lencmbs_lib.
    apply bind_Raise. apply get_ellmat_raise. now left. }
  destruct (environ ctx !! "LENSIT"%string) as [root|] eqn:Henv.
  - left. split; [exact Hres|]. split; [eauto|].
    destruct (get_lencmbs_lib_ok get_fields ellmax_of res wrotation cache_sims nsims
                num_threads ctx st root Henv Hres) as (lib & Hrun & _).
    eauto.
  - right. split; [now right|]. eexists. unfold get_lencmbs_lib.
    apply bind_Raise. now apply get_ellmat_noenv.
Qed.

(** X5. [get_maps_lib] is not: asked for a known experiment with
    [HDres <= 14 < LDres], it raises the resolution error of the data
    geometry only after the whole lensed-CMB stage has run, and the state
    it leaves is the state [get_lencmbs_lib] leaves (sky phases generated,
    barrier passed, lensed library built). *)
Theorem get_maps_lib_late_failure exp LDres HDres wrotation cache_lenalms cache_maps
        nsims num_threads ctx st root :
  environ ctx !! "LENSIT"%string = Some root ->
  exp ∈ experiments -> HDres <= 14 -> 14 < LDres ->
  exists len_cmbs st1 pre,
    get_lencmbs_lib get_fields ellmax_of HDres wrotation cache_lenalms nsims
      (OMP_NUM_THREADS ctx) ctx st = (Return len_cmbs, st1)
    /\ trace st1
       = trace st ++ pre ++ [Barrier; Construct "sims_cmb_len" (cmb_lib_dir len_cmbs)]
    /\ get_maps_lib get_fields gauss_beam ellmax_of exp LDres HDres wrotation
         cache_lenalms cache_maps nsims num_threads ctx st
       = (Raise (AssertionError (MsgRes LDres HDres)), st1).
Proof.
  intros Henv Hexp HHD HLD.
  destruct (get_lencmbs_lib_ok get_fields ellmax_of HDres wrotation cache_lenalms
              nsims (OMP_NUM_THREADS ctx) ctx st root Henv HHD)
    as (len_cmbs & Hlen & _).
  exists len_cmbs. eexists. eexists. split; [exact Hlen|].
  split; [reflexivity|]. unfold get_maps_lib.
  destruct (get_config_known exp ctx st Hexp) as (sN & beam & lmin & lmax & Hcfg).
  rewrite (bind_Return _ _ _ _ _ _ Hcfg). cbv beta iota.
  erewrite bind_Return by reflexivity.
  rewrite (bind_Return _ _ _ _ _ _ Hlen). cbv zeta.
  apply bind_Raise. apply get_ellmat_raise. now right.
Qed.

(** X6. The name of the experiment is checked first: for a name outside
    the registry [get_maps_lib] and [get_isocov] raise the "not
    implemented" error and touch nothing, whatever the resolutions and
    whether or not the cache root is set. *)
Theorem unknown_experiment_first exp LD HD wrotation cache_lenalms cache_maps
        nsims num_threads ctx st :
  exp ∉ experiments ->
  get_maps_lib get_fields gauss_beam ellmax_of exp LD HD wrotation cache_lenalms
    cache_maps nsims num_threads ctx st
  = (Raise (AssertionError (MsgStr (exp +:+ " not implemented"))), st)
  /\ get_isocov gauss_beam ellmax_of exp LD HD num_threads ctx st
     = (Raise (AssertionError (MsgStr (exp +:+ " not implemented"))), st).
Proof.
  intros Hexp. split.
  - unfold get_maps_lib. apply bind_Raise. now apply get_config_raise.
  - unfold get_isocov. cbv zeta. apply bind_Raise. now apply get_config_raise.
Qed.

End FailureProofs.

(** ** The covariance, the registry and the noisy maps *)

(** X9. [get_config] splits the names in two: a name of the registry has
    a configuration, with positive noise level and beam, a polarization
    noise [sqrt 2] times the temperature noise, and [0 < ellmin < ellmax];
    any other name raises. *)
Theorem get_config_registry exp ctx st :
  (exp ∈ experiments
   /\ exists sN beam ellmin ellmax,
        get_config exp ctx st
        = (Return (sN, PFloat (sqrt 2 * to_R sN), beam, ellmin, ellmax), st)
        /\ (0 < to_R sN)%R /\ (0 < to_R beam)%R /\ (0 < ellmin < ellmax))
  \/ ((exp ∉ experiments)
      /\ get_config exp ctx st
         = (Raise (AssertionError (MsgStr (exp +:+ " not implemented"))), st)).
Proof.
  destruct (decide (exp ∈ experiments)) as [Hin|Hout];
    [left | right; split; [exact Hout | now apply get_config_raise]].
  split; [exact Hin|].
  pose proof (sqrt_lt_R0 2 ltac:(lra)) as Hsqrt.
  apply list_elem_of_In in Hin. simpl in Hin.
  repeat (destruct Hin as [<-|Hin];
          [do 4 eexists; split; [unfold get_config; reflexivity|];
           cbn [to_R]; repeat split; try lia; try lra;
           apply Rdiv_lt_0_compat; lra |]).
  destruct Hin.
Qed.

Section LibraryProofs.

Variable get_fields : spectra -> list string.
Variable gauss_beam : R -> Z -> list R.
Variable ellmax_of : ell_mat -> (Z -> bool) -> Z.

Lemma get_isocov_run exp LD_res HD_res pyFFTWthreads ctx st root :
  environ ctx !! "LENSIT"%string = Some root ->
  exp ∈ experiments -> LD_res <= 14 -> HD_res <= 14 ->
  exists cov,
    get_isocov gauss_beam ellmax_of exp LD_res HD_res pyFFTWthreads ctx st
    = (Return cov, log st (isocov_events ctx root exp LD_res HD_res))
    /\ cov_lib_dir cov = cov_dir root exp LD_res HD_res
    /\ cov_cls_unl cov = fid_unl ctx LMAX_SKY false
    /\ cov_cls_len cov = fid_len ctx LMAX_SKY
    /\ alm_ell_mat (cov_lib_datalm cov) = alm_ell_mat (cov_lib_skyalm cov)
    /\ em_lib_dir (alm_ell_mat (cov_lib_skyalm cov)) = ellmat_dir root LD_res HD_res.
Proof.
  intros Henv Hexp HLD HHD. unfold get_isocov. cbv zeta.
  destruct (get_config_known exp ctx st Hexp) as (sN & beam & lmin & lmax & Hcfg).
  rewrite (bind_Return _ _ _ _ _ _ Hcfg). cbv beta iota.
  rewrite (bind_Return _ _ _ _ _ _ (get_fidcls_ok _ _ _ _ _ Henv)).
  rewrite (bind_Return _ _ _ _ _ _ (get_ellmat_run _ _ _ _ _ HHD HLD Henv)).
  rewrite (bind_Return _ _ _ _ _ _ (get_ellmat_run _ _ _ _ _ HHD HLD Henv)).
  rewrite (bind_Return _ _ _ _ _ _ (get_lensitdir_ok _ _ _ Henv)).
  rewrite construct_run. cbn [fst]. fold (cov_dir root exp LD_res HD_res).
  eexists (Build_ffs_diagcov_alm _ _ _ _ _ _ _). split.
  - f_equal. fold (log (log (log (log st (fid_reads ctx false))
                               [Construct "ell_mat" (ellmat_dir root LD_res HD_res)])
                          [Construct "ell_mat" (ellmat_dir root LD_res HD_res)])
                     [Construct "ffs_diagcov_alm" (cov_dir root exp LD_res HD_res)]).
    now rewrite !log_log.
  - repeat split.
Qed.

(** X7. A successful [get_isocov] involves no simulation: it reads the
    two fiducial files, builds the geometry twice on one directory and
    builds the covariance on its own; no phase is looked up or generated,
    no barrier is met, and the disk is left as it was. *)
Theorem get_isocov_effects exp LD_res HD_res pyFFTWthreads ctx st root :
  environ ctx !! "LENSIT"%string = Some root ->
  exp ∈ experiments -> LD_res <= 14 -> HD_res <= 14 ->
  exists cov st',
    get_isocov gauss_beam ellmax_of exp LD_res HD_res pyFFTWthreads ctx st
    = (Return cov, st')
    /\ disk st' = disk st
    /\ trace st'
       = trace st
         ++ [ReadFile (cls_file ctx "fiducial_flatsky_lenspotentialCls.dat");
             ReadFile (cls_file ctx "fiducial_flatsky_lensedCls.dat");
             Construct "ell_mat" (em_lib_dir (alm_ell_mat (cov_lib_datalm cov)));
             Construct "ell_mat" (em_lib_dir (alm_ell_mat (cov_lib_skyalm cov)));
             Construct "ffs_diagcov_alm" (cov_lib_dir cov)]
    /\ alm_ell_mat (cov_lib_datalm cov) = alm_ell_mat (cov_lib_skyalm cov).
Proof.
  intros Henv Hexp HLD HHD.
  destruct (get_isocov_run exp LD_res HD_res pyFFTWthreads ctx st root
              Henv Hexp HLD HHD) as (cov & Hrun & Hdir & _ & _ & Hem & Hemdir).
  exists cov. eexists. split; [exact Hrun|]. split; [reflexivity|].
  split; [|exact Hem]. now rewrite Hem, Hemdir, Hdir.
Qed.

(** X8. On one cache root, two covariances are built on the same cache
    directory only if they are for the same experiment and the same two
    resolutions. *)
Theorem cov_dir_identifies_configuration exp1 LD1 HD1 exp2 LD2 HD2 threads1 threads2
        ctx1 ctx2 st1 st2 root :
  environ ctx1 !! "LENSIT"%string = Some root ->
  environ ctx2 !! "LENSIT"%string = Some root ->
  exp1 ∈ experiments -> exp2 ∈ experiments ->
  LD1 <= 14 -> HD1 <= 14 -> LD2 <= 14 -> HD2 <= 14 ->
  exists cov1 st1' cov2 st2',
    get_isocov gauss_beam ellmax_of exp1 LD1 HD1 threads1 ctx1 st1 = (Return cov1, st1')
    /\ get_isocov gauss_beam ellmax_of exp2 LD2 HD2 threads2 ctx2 st2
       = (Return cov2, st2')
    /\ (cov_lib_dir cov1 = cov_lib_dir cov2
        <-> exp1 = exp2 /\ LD1 = LD2 /\ HD1 = HD2).
Proof.
  intros Henv1 Henv2 Hexp1 Hexp2 HLD1 HHD1 HLD2 HHD2.
  destruct (get_isocov_run exp1 LD1 HD1 threads1 ctx1 st1 root Henv1 Hexp1 HLD1 HHD1)
    as (cov1 & Hrun1 & Hdir1 & _).
  destruct (get_isocov_run exp2 LD2 HD2 threads2 ctx2 st2 root Henv2 Hexp2 HLD2 HHD2)
    as (cov2 & Hrun2 & Hdir2 & _).
  exists cov1. eexists. exists cov2. eexists.
  split; [exact Hrun1|]. split; [exact Hrun2|]. rewrite Hdir1, Hdir2. split.
  - now apply cov_dir_inj.
  - now intros (-> & -> & ->).
Qed.

(** X10. In the library of noisy maps, the noise per pixel is the noise
    level of the experiment, in uK.arcmin, divided by the side of a pixel
    in arcminutes, [sqrt(4 pi) / 2^14 * 2^(HDres - LDres) * 10800 / pi];
    the levels of Q and U are equal, [sqrt 2] times that of T. *)
Theorem maps_pixel_noise exp LDres HDres wrotation cache_lenalms cache_maps nsims
        num_threads ctx st root :
  environ ctx !! "LENSIT"%string = Some root ->
  exp ∈ experiments -> LDres <= 14 -> HDres <= 14 ->
  exists lib st' sN sNP beam ellmin ellmax,
    get_config exp ctx st = (Return (sN, sNP, beam, ellmin, ellmax), st)
    /\ get_maps_lib get_fields gauss_beam ellmax_of exp LDres HDres wrotation
         cache_lenalms cache_maps nsims num_threads ctx st = (Return lib, st')
    /\ (map_nTpix lib
        * (sqrt (4 * PI) / IZR (2 ^ 14) * powerRZ 2 (HDres - LDres) * (180 * 60 / PI))
        = to_R sN)%R
    /\ map_nQpix lib = (sqrt 2 * map_nTpix lib)%R
    /\ map_nUpix lib = map_nQpix lib.
Proof.
  intros Henv Hexp HLD HHD.
  destruct (get_maps_lib_fields get_fields gauss_beam ellmax_of exp LDres HDres
              wrotation cache_lenalms cache_maps nsims num_threads ctx st root
              Henv Hexp HLD HHD)
    as (lib & st' & len_cmbs & st1 & sN & beam & lmin & lmax & Hcfg & _ & Hrun & _
        & _ & _ & _ & _ & _ & HT & HQ & HU & _).
  exists lib, st', sN, (PFloat (sqrt 2 * to_R sN)), beam, lmin, lmax.
  split; [exact Hcfg|]. split; [exact Hrun|].
  rewrite HT, HQ, HU, sqrt_vcell_amin2.
  pose proof (lcell_amin_pos LDres HDres) as Hpos.
  fold (lcell_amin LDres HDres).
  split; [field; lra|]. split; [field; lra | reflexivity].
Qed.

(** X11. [get_maps_lib] does not use the multipole cuts
    [(ellmin, ellmax)] of the experiment.  For any two experiments of the
    registry, whatever their cuts, the two libraries built on one state
    have the same data-side harmonic library (its filter admits the
    multipoles up to the band limit of the sky-side library, nothing
    else), the same lensed-CMB library, the same pixel-noise phases and
    the same cache flag, and leave the same disk; the transfer function
    is that of the beam of the experiment up to the band limit of the
    sky, and the noise per pixel is proportional to the noise level of
    the experiment, with one factor for both. *)
Theorem maps_lib_ignores_band_limits exp1 exp2 LDres HDres wrotation cache_lenalms
        cache_maps nsims num_threads ctx st root sN1 sNP1 beam1 ellmin1 ellmax1
        sN2 sNP2 beam2 ellmin2 ellmax2 :
  environ ctx !! "LENSIT"%string = Some root ->
  LDres <= 14 -> HDres <= 14 -> HDres - LDres < 1024 ->
  get_config exp1 ctx st = (Return (sN1, sNP1, beam1, ellmin1, ellmax1), st) ->
  get_config exp2 ctx st = (Return (sN2, sNP2, beam2, ellmin2, ellmax2), st) ->
  exists lib1 st1 lib2 st2,
    get_maps_lib get_fields gauss_beam ellmax_of exp1 LDres HDres wrotation
      cache_lenalms cache_maps nsims num_threads ctx st = (Return lib1, st1)
    /\ get_maps_lib get_fields gauss_beam ellmax_of exp2 LDres HDres wrotation
         cache_lenalms cache_maps nsims num_threads ctx st = (Return lib2, st2)
    /\ map_lib_datalm lib2 = map_lib_datalm lib1
    /\ (forall ell,
          alm_filt_func (map_lib_datalm lib1) ell = true
          <-> ell <= alm_ellmax (cmb_lib_skyalm (map_lencmbs lib1)))
    /\ map_lencmbs lib2 = map_lencmbs lib1
    /\ map_pix_pha lib2 = map_pix_pha lib1
    /\ map_cache_sims lib2 = map_cache_sims lib1
    /\ disk st2 = disk st1
    /\ map_cl_transf lib1
       = gauss_beam (to_R beam1 / 60 * PI / 180)
           (alm_ellmax (cmb_lib_skyalm (map_lencmbs lib1)))
    /\ map_cl_transf lib2
       = gauss_beam (to_R beam2 / 60 * PI / 180)
           (alm_ellmax (cmb_lib_skyalm (map_lencmbs lib1)))
    /\ (map_nTpix lib1 * to_R sN2 = map_nTpix lib2 * to_R sN1)%R
    /\ (map_nQpix lib1 * to_R sNP2 = map_nQpix lib2 * to_R sNP1)%R
    /\ (map_nUpix lib1 * to_R sNP2 = map_nUpix lib2 * to_R sNP1)%R.
Proof.
  intros Henv HLD HHD _ Hcfg1 Hcfg2.
  destruct (get_config_inv _ _ _ _ _ Hcfg1) as [Hexp1 _].
  destruct (get_config_inv _ _ _ _ _ Hcfg2) as [Hexp2 _].
  destruct (get_maps_lib_fields get_fields gauss_beam ellmax_of exp1 LDres HDres
              wrotation cache_lenalms cache_maps nsims num_threads ctx st root
              Henv Hexp1 HLD HHD)
    as (lib1 & st1 & len1 & s1 & sN1' & beam1' & l1 & m1 & Hc1 & Hlen1 & Hrun1
        & Hdisk1 & _ & Hl1 & _ & Hd1 & Ht1 & HT1 & HQ1 & HU1 & Hp1 & Hs1).
  destruct (get_maps_lib_fields get_fields gauss_beam ellmax_of exp2 LDres HDres
              wrotation cache_lenalms cache_maps nsims num_threads ctx st root
              Henv Hexp2 HLD HHD)
    as (lib2 & st2 & len2 & s2 & sN2' & beam2' & l2 & m2 & Hc2 & Hlen2 & Hrun2
        & Hdisk2 & _ & Hl2 & _ & Hd2 & Ht2 & HT2 & HQ2 & HU2 & Hp2 & Hs2).
  rewrite Hcfg1 in Hc1. rewrite Hcfg2 in Hc2.
  injection Hc1 as <- HP1 <- _ _. injection Hc2 as <- HP2 <- _ _.
  rewrite Hlen1 in Hlen2. injection Hlen2 as <- _.
  exists lib1, st1, lib2, st2. split; [exact Hrun1|]. split; [exact Hrun2|].
  rewrite Hd1, Hd2, Hl1, Hl2, Hp1, Hp2, Hs1, Hs2, Hdisk1, Hdisk2, Ht1, Ht2.
  rewrite HT1, HT2, HQ1, HQ2, HU1, HU2, HP1, HP2.
  split; [reflexivity|]. split.
  { intros ell. cbn [alm_filt_func ffs_alm_pyFFTW]. apply Z.leb_le. }
  do 6 (split; [reflexivity|]).
  cbn [to_R]. unfold Rdiv. split; [ring|]. split; ring.
Qed.

End LibraryProofs.

(** ** The sky phases on disk *)

Lemma fill_go_after ctx d dir nsims :
  fill_go ctx (fill_disk ctx d dir nsims) dir nsims = false.
Proof.
  destruct (decide (rank ctx = 0)) as [Hrank|Hrank].
  - apply fill_go_full. intros idx Hidx. now apply full_after_fill.
  - now apply fill_go_rank.
Qed.

Lemma fill_disk_after ctx d dir nsims :
  fill_disk ctx (fill_disk ctx d dir nsims) dir nsims = fill_disk ctx d dir nsims.
Proof. unfold fill_disk at 1. now rewrite fill_go_after. Qed.

Section PhaseProofs.

Variable get_fields : spectra -> list string.
Variable gauss_beam : R -> Z -> list R.
Variable ellmax_of : ell_mat -> (Z -> bool) -> Z.

(** X12. After a successful [get_lencmbs_lib] the disk of the worker of
    rank 0 holds what it held before and every realization [0 .. nsims-1]
    of the sky-phase library, nothing else; the disk of a worker of
    another rank is as it was. *)
Theorem lencmbs_disk_postcondition res wrotation cache_sims nsims num_threads
        ctx st root :
  environ ctx !! "LENSIT"%string = Some root -> res <= 14 ->
  exists lib st',
    get_lencmbs_lib get_fields ellmax_of res wrotation cache_sims nsims num_threads
      ctx st = (Return lib, st')
    /\ (rank ctx = 0 ->
        forall x,
          x ∈ disk st'
          <-> x ∈ disk st
              \/ exists idx,
                   0 <= idx < nsims /\ x = (pha_lib_dir (cmb_lib_pha lib), idx))
    /\ (rank ctx ≠ 0 -> disk st' = disk st).
Proof.
  intros Henv Hres.
  destruct (get_lencmbs_lib_ok get_fields ellmax_of res wrotation cache_sims nsims
              num_threads ctx st root Henv Hres)
    as (lib & Hrun & _ & _ & _ & _ & Hpha & _).
  exists lib. eexists. split; [exact Hrun|]. cbn [disk]. rewrite Hpha. split.
  - intros Hrank x. now apply elem_of_fill_disk.
  - apply fill_disk_rank.
Qed.

(** X13. Asked again on the state it left, [get_lencmbs_lib] returns the
    same library, calls [get_sim] on nothing and leaves the disk as it
    is: the phases on disk are reused. *)
Theorem get_lencmbs_lib_idempotent res wrotation cache_sims nsims num_threads
        ctx st root :
  environ ctx !! "LENSIT"%string = Some root -> res <= 14 ->
  exists lib st1 st2 evs,
    get_lencmbs_lib get_fields ellmax_of res wrotation cache_sims nsims num_threads
      ctx st = (Return lib, st1)
    /\ get_lencmbs_lib get_fields ellmax_of res wrotation cache_sims nsims
         num_threads ctx st1 = (Return lib, st2)
    /\ disk st2 = disk st1
    /\ trace st2 = trace st1 ++ evs
    /\ forall dir idx, ~ In (GetSim dir idx) evs.
Proof.
  intros Henv Hres.
  destruct (get_lencmbs_lib_ok get_fields ellmax_of res wrotation cache_sims nsims
              num_threads ctx st root Henv Hres)
    as (lib & Hrun & Hdir & Hunl & _ & _ & _ & Hcache & Hpha & Hsky).
  set (st1 := {| disk := fill_disk ctx (disk st)
                           (skypha_dir root res nsims wrotation) nsims;
                 trace := trace st
                          ++ lencmbs_prelude ctx (disk st) root res nsims wrotation
                          ++ [Barrier; Construct "sims_cmb_len" (cmb_lib_dir lib)] |})
    in Hrun.
  destruct (get_lencmbs_lib_ok get_fields ellmax_of res wrotation cache_sims nsims
              num_threads ctx st1 root Henv Hres)
    as (lib' & Hrun' & Hdir' & Hunl' & _ & _ & _ & Hcache' & Hpha' & Hsky').
  assert (Hlib : lib' = lib).
  { destruct lib, lib'. cbn in *. congruence. }
  subst lib'. exists lib, st1. do 2 eexists.
  split; [exact Hrun|]. split; [exact Hrun'|]. cbn [disk trace st1].
  split; [apply fill_disk_after|]. split; [reflexivity|].
  intros dir idx. unfold lencmbs_prelude, fill_events, fid_reads.
  rewrite fill_go_after. destruct wrotation; cbn; intuition discriminate.
Qed.

(** X14. Below resolution 9 the sky-fraction bucket is 0: the lensed-CMB
    libraries of two different resolutions [0 <= res1 < res2 <= 8] are
    built on patches of different shapes, and yet on the same storage
    directory and the same sky-phase directory. *)
Theorem lensed_sky_dir_collision res1 res2 wrotation cache1 cache2 nsims threads1
        threads2 ctx1 ctx2 st1 st2 root :
  environ ctx1 !! "LENSIT"%string = Some root ->
  environ ctx2 !! "LENSIT"%string = Some root ->
  0 <= res1 -> res1 < res2 -> res2 <= 8 ->
  exists lib1 st1' lib2 st2',
    get_lencmbs_lib get_fields ellmax_of res1 wrotation cache1 nsims threads1 ctx1 st1
    = (Return lib1, st1')
    /\ get_lencmbs_lib get_fields ellmax_of res2 wrotation cache2 nsims threads2
         ctx2 st2 = (Return lib2, st2')
    /\ em_shape (alm_ell_mat (cmb_lib_skyalm lib1))
       ≠ em_shape (alm_ell_mat (cmb_lib_skyalm lib2))
    /\ cmb_lib_dir lib1 = cmb_lib_dir lib2
    /\ pha_lib_dir (cmb_lib_pha lib1) = pha_lib_dir (cmb_lib_pha lib2).
Proof.
  intros Henv1 Henv2 H0 Hlt H8.
  destruct (get_lencmbs_lib_ok get_fields ellmax_of res1 wrotation cache1 nsims
              threads1 ctx1 st1 root Henv1 ltac:(lia))
    as (lib1 & Hrun1 & Hdir1 & _ & _ & _ & Hpha1 & _ & _ & Hsky1).
  destruct (get_lencmbs_lib_ok get_fields ellmax_of res2 wrotation cache2 nsims
              threads2 ctx2 st2 root Henv2 ltac:(lia))
    as (lib2 & Hrun2 & Hdir2 & _ & _ & _ & Hpha2 & _ & _ & Hsky2).
  exists lib1. eexists. exists lib2. eexists.
  split; [exact Hrun1|]. split; [exact Hrun2|]. split; [|split].
  - rewrite Hsky1, Hsky2. cbn [alm_ell_mat ffs_alm_pyFFTW em_shape]. unfold pow2.
    destruct (Z.leb_spec 0 res1); [|lia]. destruct (Z.leb_spec 0 res2); [|lia].
    intros Heq. injection Heq as Heq _.
    apply Z.pow_inj_r in Heq; lia.
  - rewrite Hdir1, Hdir2. unfold lencmbs_dir.
    now rewrite !sky_fsky_small by lia.
  - rewrite Hpha1, Hpha2. unfold skypha_dir.
    now rewrite !sky_fsky_small by lia.
Qed.

(** X18. On one cache root and for one [HDres], two libraries of noisy
    maps are stored on the same directory only if they are for the same
    experiment, the same [LDres], the same number of simulations and the
    same value of [wrotation]. *)
Theorem maps_dir_identifies_configuration exp1 exp2 LD1 LD2 HDres n1 n2 w1 w2
        lenalms1 lenalms2 maps1 maps2 threads1 threads2 ctx1 ctx2 st1 st2 root :
  environ ctx1 !! "LENSIT"%string = Some root ->
  environ ctx2 !! "LENSIT"%string = Some root ->
  exp1 ∈ experiments -> exp2 ∈ experiments ->
  LD1 <= 14 -> LD2 <= 14 -> HDres <= 14 ->
  exists lib1 st1' lib2 st2',
    get_maps_lib get_fields gauss_beam ellmax_of exp1 LD1 HDres w1 lenalms1 maps1
      n1 threads1 ctx1 st1 = (Return lib1, st1')
    /\ get_maps_lib get_fields gauss_beam ellmax_of exp2 LD2 HDres w2 lenalms2 maps2
         n2 threads2 ctx2 st2 = (Return lib2, st2')
    /\ (map_lib_dir lib1 = map_lib_dir lib2
        <-> exp1 = exp2 /\ LD1 = LD2 /\ n1 = n2 /\ w1 = w2).
Proof.
  intros Henv1 Henv2 Hexp1 Hexp2 HLD1 HLD2 HHD.
  destruct (get_maps_lib_ok get_fields gauss_beam ellmax_of exp1 LD1 HDres w1
              lenalms1 maps1 n1 threads1 ctx1 st1 root Henv1 Hexp1 HLD1 HHD)
    as (lib1 & Hrun1 & Hdir1 & _).
  destruct (get_maps_lib_ok get_fields gauss_beam ellmax_of exp2 LD2 HDres w2
              lenalms2 maps2 n2 threads2 ctx2 st2 root Henv2 Hexp2 HLD2 HHD)
    as (lib2 & Hrun2 & Hdir2 & _).
  exists lib1. eexists. exists lib2. eexists.
  split; [exact Hrun1|]. split; [exact Hrun2|]. rewrite Hdir1, Hdir2. split.
  - now apply maps_dir_inj.
  - now intros (-> & -> & -> & ->).
Qed.

(** X19. The two phase libraries of a library of noisy maps are on
    different directories, and after a successful [get_maps_lib] the disk
    of the worker of rank 0 holds what it held before and every
    realization [0 .. nsims-1] of both, nothing else. *)
Theorem maps_disk_postcondition exp LDres HDres wrotation cache_lenalms cache_maps
        nsims num_threads ctx st root :
  environ ctx !! "LENSIT"%string = Some root ->
  exp ∈ experiments -> LDres <= 14 -> HDres <= 14 ->
  exists lib st',
    get_maps_lib get_fields gauss_beam ellmax_of exp LDres HDres wrotation
      cache_lenalms cache_maps nsims num_threads ctx st = (Return lib, st')
    /\ pha_lib_dir (cmb_lib_pha (map_lencmbs lib)) ≠ pha_lib_dir (map_pix_pha lib)
    /\ (rank ctx = 0 ->
        forall x,
          x ∈ disk st'
          <-> x ∈ disk st
              \/ (exists idx,
                    0 <= idx < nsims
                    /\ x = (pha_lib_dir (cmb_lib_pha (map_lencmbs lib)), idx))
              \/ (exists idx,
                    0 <= idx < nsims /\ x = (pha_lib_dir (map_pix_pha lib), idx))).
Proof.
  intros Henv Hexp HLD HHD.
  destruct (get_maps_lib_fields get_fields gauss_beam ellmax_of exp LDres HDres
              wrotation cache_lenalms cache_maps nsims num_threads ctx st root
              Henv Hexp HLD HHD)
    as (lib & st' & len_cmbs & st1 & sN & beam & lmin & lmax & _ & _ & Hrun & Hdisk
        & _ & Hlen & Hsky & _ & _ & _ & _ & _ & Hpix & _).
  exists lib, st'. split; [exact Hrun|].
  rewrite Hlen, Hsky, Hpix. cbn [pha_lib_dir]. split.
  - apply skypha_pixpha_distinct.
  - intros Hrank x. rewrite Hdisk.
    rewrite (elem_of_fill_disk _ _ _ _ _ Hrank).
    rewrite (elem_of_fill_disk _ _ _ _ _ Hrank). tauto.
Qed.

End PhaseProofs.

(** ** The fiducial spectra, again *)

Lemma cl_at_sliced (raw : spectra) f key n ell :
  0 <= ell < n ->
  (forall v, f key v = slice_to n v \/ f key v = v) ->
  cl_at (dict_for_keys f raw) key ell = cl_at raw key ell.
Proof.
  intros Hell Hf. unfold cl_at. rewrite lookup_dict_for_keys.
  destruct (raw !! key) as [v|]; [|reflexivity]. cbn.
  destruct (Hf v) as [-> | ->]; [|reflexivity].
  rewrite slice_to_lookup by lia. now rewrite decide_True by lia.
Qed.

(** X15. The cut of [get_fidcls] keeps the values: at every multipole
    [0 <= ell <= ellmax_sky] each lensed column, and each unlensed column
    read from the fiducial file, has the value the file has there. *)
Theorem get_fidcls_values ellmax_sky wrotationCls ell ctx st root :
  environ ctx !! "LENSIT"%string = Some root ->
  0 <= ell <= ellmax_sky ->
  exists cls_unl cls_len st',
    get_fidcls ellmax_sky wrotationCls ctx st = (Return (cls_unl, cls_len), st')
    /\ (forall key,
          cl_at cls_len key ell
          = cl_at (camb_clfile ctx (cls_file ctx "fiducial_flatsky_lensedCls.dat"))
              key ell)
    /\ (forall key,
          (key = "oo"%string -> wrotationCls = false) ->
          cl_at cls_unl key ell
          = cl_at (camb_clfile ctx
                     (cls_file ctx "fiducial_flatsky_lenspotentialCls.dat")) key ell).
Proof.
  intros Henv Hell.
  pose proof (get_fidcls_ok ellmax_sky wrotationCls ctx st root Henv) as Hrun.
  do 3 eexists. split; [exact Hrun|]. unfold fid_len, fid_unl. cbv zeta. split.
  - intros key. apply (cl_at_sliced _ _ key (ellmax_sky + 1)); [lia | auto].
  - intros key Hoo.
    assert (Hcut : cl_at
                     (dict_for_keys
                        (fun key v => if decide (key = "pp"%string) then v
                                      else slice_to (ellmax_sky + 1) v)
                        (camb_clfile ctx
                           (cls_file ctx "fiducial_flatsky_lenspotentialCls.dat")))
                     key ell
                   = cl_at (camb_clfile ctx
                              (cls_file ctx "fiducial_flatsky_lenspotentialCls.dat"))
                       key ell).
    { apply (cl_at_sliced _ _ key (ellmax_sky + 1)); [lia|].
      intros v. destruct (decide (key = "pp"%string)); auto. }
    destruct wrotationCls; [|exact Hcut].
    unfold cl_at in *. rewrite lookup_insert_ne; [exact Hcut|].
    intros <-. now specialize (Hoo eq_refl).
Qed.

(** X16. The cut of [get_fidcls] never pads and is not guarded against a
    negative bound: a lensed column of the file comes back with
    [min (ellmax_sky + 1) n] of its [n] entries when [ellmax_sky >= -1],
    and for [ellmax_sky < -1] with all its entries but the last
    [-(ellmax_sky + 1)], as a Python slice with a negative bound does. *)
Theorem get_fidcls_lengths ellmax_sky wrotationCls key col ctx st root :
  environ ctx !! "LENSIT"%string = Some root ->
  camb_clfile ctx (cls_file ctx "fiducial_flatsky_lensedCls.dat") !! key = Some col ->
  exists cls_unl cls_len st' col',
    get_fidcls ellmax_sky wrotationCls ctx st = (Return (cls_unl, cls_len), st')
    /\ cls_len !! key = Some col'
    /\ (-1 <= ellmax_sky ->
        length col' = Nat.min (Z.to_nat (ellmax_sky + 1)) (length col))
    /\ (ellmax_sky < -1 ->
        length col' = (length col - Z.to_nat (- (ellmax_sky + 1)))%nat).
Proof.
  intros Henv Hcol.
  pose proof (get_fidcls_ok ellmax_sky wrotationCls ctx st root Henv) as Hrun.
  do 4 eexists. split; [exact Hrun|]. unfold fid_len.
  rewrite lookup_dict_for_keys, Hcol. split; [reflexivity|].
  rewrite slice_to_length. split; intros H.
  - destruct (Z.leb_spec 0 (ellmax_sky + 1)); [reflexivity | lia].
  - destruct (Z.leb_spec 0 (ellmax_sky + 1)); [lia | reflexivity].
Qed.

(** X17. With the cache root set, [get_fidtenscls] reads the one file of
    tensor spectra and nothing else, and returns every column of it, the
    column ['pp'] included, cut to [0 : ellmax_sky + 1], with the values
    of the file at the multipoles kept. *)
Theorem get_fidtenscls_columns ellmax_sky ctx st root :
  environ ctx !! "LENSIT"%string = Some root ->
  exists cls st',
    get_fidtenscls ellmax_sky ctx st = (Return cls, st')
    /\ disk st' = disk st
    /\ trace st' = trace st ++ [ReadFile (cls_file ctx "fiducial_tensCls.dat")]
    /\ (forall key,
          cls !! key
          = slice_to (ellmax_sky + 1)
              <$> camb_clfile ctx (cls_file ctx "fiducial_tensCls.dat") !! key)
    /\ (forall key ell,
          0 <= ell <= ellmax_sky ->
          cl_at cls key ell
          = cl_at (camb_clfile ctx (cls_file ctx "fiducial_tensCls.dat")) key ell).
Proof.
  intros Henv. do 2 eexists.
  split; [now apply (get_fidtenscls_run ellmax_sky ctx st root)|].
  split; [reflexivity|]. split; [reflexivity|]. split.
  - intros key. apply lookup_dict_for_keys.
  - intros key ell Hell. apply (cl_at_sliced _ _ key (ellmax_sky + 1)); [lia | auto].
Qed.

(** ** The further properties on the sample environments *)

Lemma missing_cache_root_witness :
  get_fidcls 5120 false ctx_noenv st0 = (Raise no_LENSIT, st0)
  /\ get_fidtenscls 5120 ctx_noenv st0 = (Raise no_LENSIT, st0)
  /\ (10 <= 14 -> 14 <= 14 -> 14 - 10 < 1024 ->
      get_ellmat 10 14 ctx_noenv st0 = (Raise no_LENSIT, st0))
  /\ (14 <= 14 ->
      get_lencmbs_lib keys_of ellmax_sky_of 14 false true 2 1 ctx_noenv st0
      = (Raise no_LENSIT, st0))
  /\ ("Planck"%string ∈ experiments -> 14 <= 14 ->
      get_maps_lib keys_of beam_one ellmax_sky_of "Planck" 10 14 false true false 2 1
        ctx_noenv st0 = (Raise no_LENSIT, st0))
  /\ ("Planck"%string ∈ experiments ->
      get_isocov beam_one ellmax_sky_of "Planck" 10 14 1 ctx_noenv st0
      = (Raise no_LENSIT, st0)).
Proof.
  apply (missing_cache_root keys_of beam_one ellmax_sky_of "Planck" 14 10 14 5120
           false true false 2 1 ctx_noenv st0).
  reflexivity.
Defined.

Lemma get_maps_lib_late_failure_witness :
  exists len_cmbs st1 pre,
    get_lencmbs_lib keys_of ellmax_sky_of 14 false true 2 (OMP_NUM_THREADS ctx0)
      ctx0 st0 = (Return len_cmbs, st1)
    /\ trace st1
       = trace st0 ++ pre ++ [Barrier; Construct "sims_cmb_len" (cmb_lib_dir len_cmbs)]
    /\ get_maps_lib keys_of beam_one ellmax_sky_of "Planck" 15 14 false true false
         2 1 ctx0 st0
       = (Raise (AssertionError (MsgRes 15 14)), st1).
Proof.
  apply (get_maps_lib_late_failure keys_of beam_one ellmax_sky_of "Planck" 15 14
           false true false 2 1 ctx0 st0 "/data").
  - reflexivity.
  - apply list_elem_of_In. simpl. tauto.
  - lia.
  - lia.
Defined.

Lemma unknown_experiment_first_witness :
  get_maps_lib keys_of beam_one ellmax_sky_of "not_a_real_experiment" 99 99 false
    true false 2 1 ctx_noenv st0
  = (Raise (AssertionError (MsgStr "not_a_real_experiment not implemented")), st0)
  /\ get_isocov beam_one ellmax_sky_of "not_a_real_experiment" 99 99 1 ctx_noenv st0
     = (Raise (AssertionError (MsgStr "not_a_real_experiment not implemented")), st0).
Proof.
  apply (unknown_experiment_first keys_of beam_one ellmax_sky_of
           "not_a_real_experiment" 99 99 false true false 2 1 ctx_noenv st0).
  intros H. apply list_elem_of_In in H. simpl in H. intuition discriminate.
Defined.

Lemma get_isocov_effects_witness :
  exists cov st',
    get_isocov beam_one ellmax_sky_of "Planck" 10 14 1 ctx0 st0 = (Return cov, st')
    /\ disk st' = disk st0
    /\ trace st'
       = trace st0
         ++ [ReadFile (cls_file ctx0 "fiducial_flatsky_lenspotentialCls.dat");
             ReadFile (cls_file ctx0 "fiducial_flatsky_lensedCls.dat");
             Construct "ell_mat" (em_lib_dir (alm_ell_mat (cov_lib_datalm cov)));
             Construct "ell_mat" (em_lib_dir (alm_ell_mat (cov_lib_skyalm cov)));
             Construct "ffs_diagcov_alm" (cov_lib_dir cov)]
    /\ alm_ell_mat (cov_lib_datalm cov) = alm_ell_mat (cov_lib_skyalm cov).
Proof.
  apply (get_isocov_effects beam_one ellmax_sky_of "Planck" 10 14 1 ctx0 st0 "/data").
  - reflexivity.
  - apply list_elem_of_In. simpl. tauto.
  - lia.
  - lia.
Defined.

Lemma cov_dir_identifies_configuration_witness :
  exists cov1 st1' cov2 st2',
    get_isocov beam_one ellmax_sky_of "Planck" 10 14 1 ctx0 st0 = (Return cov1, st1')
    /\ get_isocov beam_one ellmax_sky_of "S4" 10 14 1 ctx0 st0 = (Return cov2, st2')
    /\ (cov_lib_dir cov1 = cov_lib_dir cov2
        <-> "Planck"%string = "S4"%string /\ 10 = 10 /\ 14 = 14).
Proof.
  apply (cov_dir_identifies_configuration beam_one ellmax_sky_of "Planck" 10 14
           "S4" 10 14 1 1 ctx0 ctx0 st0 st0 "/data").
  - reflexivity.
  - reflexivity.
  - apply list_elem_of_In. simpl. tauto.
  - apply list_elem_of_In. simpl. tauto.
  - lia.
  - lia.
  - lia.
  - lia.
Defined.

Lemma maps_pixel_noise_witness :
  exists lib st' sN sNP beam ellmin ellmax,
    get_config "Planck" ctx0 st0 = (Return (sN, sNP, beam, ellmin, ellmax), st0)
    /\ get_maps_lib keys_of beam_one ellmax_sky_of "Planck" 10 14 false true false
         2 1 ctx0 st0 = (Return lib, st')
    /\ (map_nTpix lib
        * (sqrt (4 * PI) / IZR (2 ^ 14) * powerRZ 2 (14 - 10) * (180 * 60 / PI))
        = to_R sN)%R
    /\ map_nQpix lib = (sqrt 2 * map_nTpix lib)%R
    /\ map_nUpix lib = map_nQpix lib.
Proof.
  apply (maps_pixel_noise keys_of beam_one ellmax_sky_of "Planck" 10 14 false true
           false 2 1 ctx0 st0 "/data").
  - reflexivity.
  - apply list_elem_of_In. simpl. tauto.
  - lia.
  - lia.
Defined.

Lemma maps_lib_ignores_band_limits_witness :
  exists lib1 st1 lib2 st2,
    get_maps_lib keys_of beam_one ellmax_sky_of "Planck_65" 10 14 false true false
      2 1 ctx0 st0 = (Return lib1, st1)
    /\ get_maps_lib keys_of beam_one ellmax_sky_of "S4" 10 14 false true false
         2 1 ctx0 st0 = (Return lib2, st2)
    /\ map_lib_datalm lib2 = map_lib_datalm lib1
    /\ (forall ell,
          alm_filt_func (map_lib_datalm lib1) ell = true
          <-> ell <= alm_ellmax (cmb_lib_skyalm (map_lencmbs lib1)))
    /\ map_lencmbs lib2 = map_lencmbs lib1
    /\ map_pix_pha lib2 = map_pix_pha lib1
    /\ map_cache_sims lib2 = map_cache_sims lib1
    /\ disk st2 = disk st1
    /\ map_cl_transf lib1
       = beam_one (to_R (PFloat 6.5) / 60 * PI / 180)
           (alm_ellmax (cmb_lib_skyalm (map_lencmbs lib1)))
    /\ map_cl_transf lib2
       = beam_one (to_R (PFloat 3) / 60 * PI / 180)
           (alm_ellmax (cmb_lib_skyalm (map_lencmbs lib1)))
    /\ (map_nTpix lib1 * to_R (PFloat 1.5) = map_nTpix lib2 * to_R (PFloat 35))%R
    /\ (map_nQpix lib1 * to_R (PFloat (sqrt 2 * to_R (PFloat 1.5)))
        = map_nQpix lib2 * to_R (PFloat (sqrt 2 * to_R (PFloat 35))))%R
    /\ (map_nUpix lib1 * to_R (PFloat (sqrt 2 * to_R (PFloat 1.5)))
        = map_nUpix lib2 * to_R (PFloat (sqrt 2 * to_R (PFloat 35))))%R.
Proof.
  apply (maps_lib_ignores_band_limits keys_of beam_one ellmax_sky_of "Planck_65" "S4"
           10 14 false true false 2 1 ctx0 st0 "/data"
           (PFloat 35) (PFloat (sqrt 2 * to_R (PFloat 35))) (PFloat 6.5) 100 2048
           (PFloat 1.5) (PFloat (sqrt 2 * to_R (PFloat 1.5))) (PFloat 3) 10 3000).
  - reflexivity.
  - lia.
  - lia.
  - lia.
  - reflexivity.
  - reflexivity.
Defined.

Lemma lencmbs_disk_postcondition_witness :
  exists lib st',
    get_lencmbs_lib keys_of ellmax_sky_of 14 false true 2 1 ctx0 st0 = (Return lib, st')
    /\ (rank ctx0 = 0 ->
        forall x,
          x ∈ disk st'
          <-> x ∈ disk st0
              \/ exists idx,
                   0 <= idx < 2 /\ x = (pha_lib_dir (cmb_lib_pha lib), idx))
    /\ (rank ctx0 ≠ 0 -> disk st' = disk st0).
Proof.
  apply (lencmbs_disk_postcondition keys_of ellmax_sky_of 14 false true 2 1 ctx0 st0
           "/data"); [reflexivity | lia].
Defined.

Lemma get_lencmbs_lib_idempotent_witness :
  exists lib st1 st2 evs,
    get_lencmbs_lib keys_of ellmax_sky_of 14 false true 2 1 ctx0 st0 = (Return lib, st1)
    /\ get_lencmbs_lib keys_of ellmax_sky_of 14 false true 2 1 ctx0 st1
       = (Return lib, st2)
    /\ disk st2 = disk st1
    /\ trace st2 = trace st1 ++ evs
    /\ forall dir idx, ~ In (GetSim dir idx) evs.
Proof.
  apply (get_lencmbs_lib_idempotent keys_of ellmax_sky_of 14 false true 2 1 ctx0 st0
           "/data"); [reflexivity | lia].
Defined.

Lemma lensed_sky_dir_collision_witness :
  exists lib1 st1' lib2 st2',
    get_lencmbs_lib keys_of ellmax_sky_of 7 false true 2 1 ctx0 st0 = (Return lib1, st1')
    /\ get_lencmbs_lib keys_of ellmax_sky_of 8 false true 2 1 ctx0 st0
       = (Return lib2, st2')
    /\ em_shape (alm_ell_mat (cmb_lib_skyalm lib1))
       ≠ em_shape (alm_ell_mat (cmb_lib_skyalm lib2))
    /\ cmb_lib_dir lib1 = cmb_lib_dir lib2
    /\ pha_lib_dir (cmb_lib_pha lib1) = pha_lib_dir (cmb_lib_pha lib2).
Proof.
  apply (lensed_sky_dir_collision keys_of ellmax_sky_of 7 8 false true true 2 1 1
           ctx0 ctx0 st0 st0 "/data"); (reflexivity || lia).
Defined.

Lemma maps_dir_identifies_configuration_witness :
  exists lib1 st1' lib2 st2',
    get_maps_lib keys_of beam_one ellmax_sky_of "Planck" 10 14 false true false 2 1
      ctx0 st0 = (Return lib1, st1')
    /\ get_maps_lib keys_of beam_one ellmax_sky_of "Planck" 11 14 false true false 2 1
         ctx0 st0 = (Return lib2, st2')
    /\ (map_lib_dir lib1 = map_lib_dir lib2
        <-> "Planck"%string = "Planck"%string /\ 10 = 11 /\ 2 = 2 /\ false = false).
Proof.
  apply (maps_dir_identifies_configuration keys_of beam_one ellmax_sky_of "Planck"
           "Planck" 10 11 14 2 2 false false true true false false 1 1 ctx0 ctx0
           st0 st0 "/data").
  - reflexivity.
  - reflexivity.
  - apply list_elem_of_In. simpl. tauto.
  - apply list_elem_of_In. simpl. tauto.
  - lia.
  - lia.
  - lia.
Defined.

Lemma maps_disk_postcondition_witness :
  exists lib st',
    get_maps_lib keys_of beam_one ellmax_sky_of "Planck" 10 14 false true false 2 1
      ctx0 st0 = (Return lib, st')
    /\ pha_lib_dir (cmb_lib_pha (map_lencmbs lib)) ≠ pha_lib_dir (map_pix_pha lib)
    /\ (rank ctx0 = 0 ->
        forall x,
          x ∈ disk st'
          <-> x ∈ disk st0
              \/ (exists idx,
                    0 <= idx < 2
                    /\ x = (pha_lib_dir (cmb_lib_pha (map_lencmbs lib)), idx))
              \/ (exists idx,
                    0 <= idx < 2 /\ x = (pha_lib_dir (map_pix_pha lib), idx))).
Proof.
  apply (maps_disk_postcondition keys_of beam_one ellmax_sky_of "Planck" 10 14 false
           true false 2 1 ctx0 st0 "/data").
  - reflexivity.
  - apply list_elem_of_In. simpl. tauto.
  - lia.
  - lia.
Defined.

Lemma get_fidcls_values_witness :
  exists cls_unl cls_len st',
    get_fidcls 5 false ctx_a st0 = (Return (cls_unl, cls_len), st')
    /\ (forall key,
          cl_at cls_len key 1
          = cl_at (camb_clfile ctx_a (cls_file ctx_a "fiducial_flatsky_lensedCls.dat"))
              key 1)
    /\ (forall key,
          (key = "oo"%string -> false = false) ->
          cl_at cls_unl key 1
          = cl_at (camb_clfile ctx_a
                     (cls_file ctx_a "fiducial_flatsky_lenspotentialCls.dat")) key 1).
Proof.
  apply (get_fidcls_values 5 false 1 ctx_a st0 "/data"); [reflexivity | lia].
Defined.

Lemma get_fidcls_lengths_witness :
  exists cls_unl cls_len st' col',
    get_fidcls (-2) false ctx_a st0 = (Return (cls_unl, cls_len), st')
    /\ cls_len !! "tt"%string = Some col'
    /\ (-1 <= -2 -> length col' = Nat.min (Z.to_nat (-2 + 1)) (length [1; 2]%R))
    /\ (-2 < -1 -> length col' = (length [1; 2]%R - Z.to_nat (- (-2 + 1)))%nat).
Proof.
  apply (get_fidcls_lengths (-2) false "tt" [1; 2]%R ctx_a st0 "/data");
    reflexivity.
Defined.

Lemma get_fidtenscls_columns_witness :
  exists cls st',
    get_fidtenscls 5 ctx_a st0 = (Return cls, st')
    /\ disk st' = disk st0
    /\ trace st' = trace st0 ++ [ReadFile (cls_file ctx_a "fiducial_tensCls.dat")]
    /\ (forall key,
          cls !! key
          = slice_to (5 + 1)
              <$> camb_clfile ctx_a (cls_file ctx_a "fiducial_tensCls.dat") !! key)
    /\ (forall key ell,
          0 <= ell <= 5 ->
          cl_at cls key ell
          = cl_at (camb_clfile ctx_a (cls_file ctx_a "fiducial_tensCls.dat")) key ell).
Proof. apply (get_fidtenscls_columns 5 ctx_a st0 "/data"). reflexivity. Defined.
